(** * SpecOptions: the options record of a sass-spec test case

    A shallow embedding of [src/lib/spec-directory/options.ts].

    The TypeScript class [SpecOptions] wraps a plain JavaScript object
    ([OptionsData]) whose keys are the four option names and whose values
    are arrays of strings or a number.  The object is read with dynamic
    property access, enumerated with [Object.entries], copied with the
    spread operator and edited with [delete]; the embedding keeps that
    shape: an insertion-ordered property list, JavaScript values, and an
    exception result for the places where the program would throw a
    [TypeError]. *)

From Stdlib Require Import String Ascii List Bool ZArith Lia.
Import ListNotations.

Local Open Scope string_scope.
Local Open Scope list_scope.
Local Open Scope Z_scope.

(* ================================================================== *)
(** ** Results of evaluation *)

(** An expression either completes with a value or throws.  The class
    raises nothing by itself; what can be thrown is a [TypeError] of the
    language (a method called on a value that does not have it, a property
    read off [undefined], a spread of something that is not iterable) or
    the exception of the YAML library. *)

Inductive exn : Type :=
| TypeError
| YAMLException.

Inductive result (A : Type) : Type :=
| Ok (a : A)
| Throw (e : exn).

Arguments Ok {A} a.
Arguments Throw {A} e.

Definition bind {A B : Type} (c : result A) (k : A -> result B) : result B :=
  match c with
  | Ok a => k a
  | Throw e => Throw e
  end.

Notation "x <- c ;; k" := (bind c (fun x => k))
  (at level 61, c at next level, right associativity).

(* ================================================================== *)
(** ** Strings: [String.prototype.includes] *)

(** [startsWith s p]: [p] occurs in [s] at position 0. *)
Fixpoint startsWith (s p : string) : bool :=
  match p, s with
  | EmptyString, _ => true
  | String _ _, EmptyString => false
  | String c p', String d s' => Ascii.eqb c d && startsWith s' p'
  end.

(** [includes item impl] is [item.includes(impl)]: [impl] occurs in [item]
    at some position (position [length item] included, where only the empty
    string occurs). *)
Fixpoint includes (item impl : string) : bool :=
  startsWith item impl ||
  match item with
  | EmptyString => false
  | String _ rest => includes rest impl
  end.

(* ================================================================== *)
(** ** JavaScript values and objects *)

(** The values an [OptionsData] object holds according to its interface:
    [string[]] for the three list options, [number] for [:precision], and
    [undefined] (every field is optional, and [merge] writes [undefined]
    under [:precision] when neither side has one).  Precisions are
    integers.  What else a decoded document can hold (a string, a nested
    array, the number [NaN]) is outside the interface and is not a value
    here; [null] behaves as [undefined] does in every use the class makes
    of a value. *)
Inductive value : Type :=
| VUndefined
| VNumber (n : Z)
| VArray (items : list string).

(** An object: its own enumerable properties in the order [Object.entries]
    lists them, each name once. *)
Definition object : Type := list (string * value).

Module Obj.

(** Own property lookup. *)
Fixpoint lookup (o : object) (k : string) : option value :=
  match o with
  | [] => None
  | (k', v) :: o' => if String.eqb k' k then Some v else lookup o' k
  end.

(** [o[k]]: reading a missing property gives [undefined]. *)
Definition get (o : object) (k : string) : value :=
  match lookup o k with
  | Some v => v
  | None => VUndefined
  end.

(** [k in o], for own properties. *)
Definition has (o : object) (k : string) : bool :=
  match lookup o k with
  | Some _ => true
  | None => false
  end.

(** [{...o, [k]: v}]: an existing property keeps its place and takes the
    new value, a new property goes last. *)
Fixpoint set (o : object) (k : string) (v : value) : object :=
  match o with
  | [] => [(k, v)]
  | (k', v') :: o' =>
      if String.eqb k' k then (k', v) :: o' else (k', v') :: set o' k v
  end.

(** [delete o[k]] on a copy of [o]. *)
Fixpoint delete (o : object) (k : string) : object :=
  match o with
  | [] => []
  | (k', v') :: o' =>
      if String.eqb k' k then delete o' k else (k', v') :: delete o' k
  end.

(** [Object.entries(o)]. *)
Definition entries (o : object) : list (string * value) := o.

(** The properties of [o] other than [k], in order. *)
Definition others (o : object) (k : string) : list (string * value) :=
  filter (fun kv => negb (String.eqb (fst kv) k)) o.

End Obj.

(** [a ?? b] *)
Definition nullish (a b : value) : value :=
  match a with
  | VUndefined => b
  | _ => a
  end.

(** [!v]: [undefined] and the number 0 are falsy, every array is truthy
    (the empty one too).  Numbers are integers here: [NaN], which is falsy
    as well, is not among them. *)
Definition falsy (v : value) : bool :=
  match v with
  | VUndefined => true
  | VNumber n => n =? 0
  | VArray _ => false
  end.

(** [[...v]]: the elements of an iterable; numbers and [undefined] are not
    iterable. *)
Definition spread (v : value) : result (list string) :=
  match v with
  | VArray items => Ok items
  | _ => Throw TypeError
  end.

(** [v.length]: arrays have one, numbers answer [undefined], and reading a
    property of [undefined] throws. *)
Definition length_of (v : value) : result value :=
  match v with
  | VArray items => Ok (VNumber (Z.of_nat (List.length items)))
  | VNumber _ => Ok VUndefined
  | VUndefined => Throw TypeError
  end.

(** [v === n] for a number literal [n]. *)
Definition strict_eq_number (v : value) (n : Z) : bool :=
  match v with
  | VNumber m => m =? n
  | _ => false
  end.

(** The receiver of an array method ([some], [findIndex]): only arrays
    have them. *)
Definition array_receiver (v : value) : result (list string) :=
  match v with
  | VArray items => Ok items
  | _ => Throw TypeError
  end.

(** [Array.prototype.every] with a callback that may throw: stops at the
    first entry that answers [false]. *)
Fixpoint every {A : Type} (p : A -> result bool) (l : list A) : result bool :=
  match l with
  | [] => Ok true
  | x :: l' => b <- p x ;; if b then every p l' else Ok false
  end.

(** [Array.prototype.some] *)
Definition some {A : Type} (p : A -> bool) (l : list A) : bool := existsb p l.

(** [Array.prototype.findIndex]: the index of the first element that
    satisfies [p], or -1. *)
Fixpoint findIndex {A : Type} (p : A -> bool) (l : list A) : Z :=
  match l with
  | [] => -1
  | x :: l' =>
      if p x then 0
      else let i := findIndex p l' in if i =? -1 then -1 else i + 1
  end.

(** [Array.prototype.slice(start, end)]: negative arguments count from the
    end, and both are clamped to the array. *)
Definition slice {A : Type} (l : list A) (start stop : Z) : list A :=
  let len := Z.of_nat (List.length l) in
  let clamp i := if i <? 0 then Z.max (len + i) 0 else Z.min i len in
  let k := clamp start in
  let final := clamp stop in
  firstn (Z.to_nat (final - k)) (skipn (Z.to_nat k) l).

(* ================================================================== *)
(** ** The options data *)

(** [interface OptionsData]: an object with the optional properties
    [:ignore_for], [:todo], [:warning_todo] and [:precision]. *)
Definition OptionsData : Type := object.

(** [type OptionKey]: a key for an option represented by an array of
    implementations. *)
Inductive OptionKey : Type :=
| K_ignore_for
| K_todo
| K_warning_todo.

(** The property name an [OptionKey] stands for. *)
Definition key (option : OptionKey) : string :=
  match option with
  | K_ignore_for => ":ignore_for"
  | K_todo => ":todo"
  | K_warning_todo => ":warning_todo"
  end.

(** The run modes that [getMode] answers; [undefined] is [None]. *)
Inductive Mode : Type :=
| Mode_todo
| Mode_ignore.

(** What the interface declares about one property: the list options hold
    an array when they hold anything, [:precision] holds a number when it
    holds anything, other properties are not constrained. *)
Definition entry_typed (kv : string * value) : bool :=
  let (k, v) := kv in
  if (k =? ":ignore_for")%string || (k =? ":todo")%string
     || (k =? ":warning_todo")%string
  then match v with VNumber _ => false | _ => true end
  else if (k =? ":precision")%string
  then match v with VArray _ => false | _ => true end
  else true.

(** An object that inhabits [OptionsData]. *)
Definition well_typed (d : OptionsData) : Prop :=
  forallb entry_typed d = true.

(* ================================================================== *)
(** ** class SpecOptions *)

Record SpecOptions : Type := new_SpecOptions { data : OptionsData }.

(** [get isEmpty] *)
Definition isEmpty (this : SpecOptions) : result bool :=
  every (fun kv : string * value =>
           let (k, v) := kv in
           if (k =? ":precision")%string
           then Ok (strict_eq_number v 10)
           else len <- length_of v ;; Ok (strict_eq_number len 0))
        (Obj.entries this.(data)).

(** [merge(other)] *)
Definition merge (this other : SpecOptions) : result SpecOptions :=
  let mergeOption (option : OptionKey) : result value :=
    a <- spread (nullish (Obj.get this.(data) (key option)) (VArray [])) ;;
    b <- spread (nullish (Obj.get other.(data) (key option)) (VArray [])) ;;
    Ok (VArray (a ++ b)) in
  i <- mergeOption K_ignore_for ;;
  t <- mergeOption K_todo ;;
  w <- mergeOption K_warning_todo ;;
  Ok (new_SpecOptions
        [ (":ignore_for", i);
          (":todo", t);
          (":warning_todo", w);
          (":precision",
            nullish (Obj.get other.(data) ":precision")
                    (Obj.get this.(data) ":precision")) ]).

(** [hasForImpl(impl, option)]: [!!this.data[option]?.some(...)] *)
Definition hasForImpl (this : SpecOptions) (impl : string) (option : OptionKey)
  : result bool :=
  match Obj.get this.(data) (key option) with
  | VUndefined => Ok false
  | v => items <- array_receiver v ;;
         Ok (some (fun item => includes item impl) items)
  end.

(** [getMode(impl)] *)
Definition getMode (this : SpecOptions) (impl : string) : result (option Mode) :=
  ignored <- hasForImpl this impl K_ignore_for ;;
  if ignored then Ok (Some Mode_ignore)
  else
    deferred <- hasForImpl this impl K_todo ;;
    if deferred then Ok (Some Mode_todo)
    else Ok None.

(** [isWarningTodo(impl)] *)
Definition isWarningTodo (this : SpecOptions) (impl : string) : result bool :=
  hasForImpl this impl K_warning_todo.

(** [precision()] *)
Definition precision (this : SpecOptions) : value :=
  nullish (Obj.get this.(data) ":precision") (VNumber 10).

(** [addImpl(impl, optKey)] *)
Definition addImpl (this : SpecOptions) (impl : string) (optKey : OptionKey)
  : result SpecOptions :=
  old <- spread (nullish (Obj.get this.(data) (key optKey)) (VArray [])) ;;
  let newOption := old ++ [impl] in
  Ok (new_SpecOptions (Obj.set this.(data) (key optKey) (VArray newOption))).

(** [removeImpl(impl, optKey)] *)
Definition removeImpl (this : SpecOptions) (impl : string) (optKey : OptionKey)
  : result SpecOptions :=
  let oldOption := Obj.get this.(data) (key optKey) in
  if falsy oldOption then Ok this
  else
    items <- array_receiver oldOption ;;
    let index := findIndex (fun item => includes item impl) items in
    if index =? -1 then Ok this
    else if Z.of_nat (List.length items) =? 1
    then Ok (new_SpecOptions (Obj.delete this.(data) (key optKey)))
    else
      Ok (new_SpecOptions
            (Obj.set this.(data) (key optKey)
               (VArray (slice items 0 index
                        ++ slice items (index + 1)
                                 (Z.of_nat (List.length items)))))).

(* ------------------------------------------------------------------ *)
(** *** YAML text *)

(** The longest run of characters other than the single quote at the head
    of [s], and what follows it: the part [[^']+] of the pattern takes. *)
Fixpoint span_unquoted (s : string) : string * string :=
  match s with
  | EmptyString => (EmptyString, EmptyString)
  | String c s' =>
      if Ascii.eqb c "'"%char then (EmptyString, s)
      else let (run, rest) := span_unquoted s' in (String c run, rest)
  end.

(** One match of [/'(:[^']+)':/] at the head of [s]: the captured group.
    The class [[^']] cannot step over a quote, so the run it takes is the
    longest one and the match succeeds exactly when a quote and a colon
    follow that run. *)
Definition match_quoted_key (s : string) : option string :=
  match s with
  | String "'"%char (String ":"%char s1) =>
      match span_unquoted s1 with
      | (String c run, String "'"%char (String ":"%char _)) =>
          Some (String ":"%char (String c run))
      | _ => None
      end
  | _ => None
  end.

(** [text.replace(/'(:[^']+)':/g, '$1:')], scanning from the left; [skip]
    counts the characters of the current match still to be passed over. *)
Fixpoint replace_quoted_keys (skip : nat) (text : string) : string :=
  match text with
  | EmptyString => EmptyString
  | String c text' =>
      match skip with
      | S n => replace_quoted_keys n text'
      | O =>
          match match_quoted_key text with
          | Some group =>
              (group ++ ":"
                 ++ replace_quoted_keys (String.length group + 2) text')%string
          | None => String c (replace_quoted_keys 0 text')
          end
      end
  end.

(** No single quote occurs in [s]. *)
Fixpoint quote_free (s : string) : bool :=
  match s with
  | EmptyString => true
  | String c s' => negb (Ascii.eqb c "'"%char) && quote_free s'
  end.

Section Yaml.

(** The YAML library ([js-yaml]) is not part of this program: [load]
    answers an object, or nothing for an empty document, or throws;
    [dump] answers text or throws. *)
Variable yaml_load : string -> result (option object).
Variable yaml_dump : object -> result string.

(** [static fromYaml(content)] *)
Definition fromYaml (content : string) : result SpecOptions :=
  loaded <- yaml_load content ;;
  Ok (new_SpecOptions
        match loaded with
        | Some o => o
        | None => []
        end).

(** [toYaml()] *)
Definition toYaml (this : SpecOptions) : result string :=
  text <- yaml_dump this.(data) ;;
  Ok (replace_quoted_keys 0 text).

End Yaml.

(* ================================================================== *)
(** ** Reading a record *)

(** The entries of a list option, an absent option read as the empty
    sequence. *)
Definition entries_of (this : SpecOptions) (option : OptionKey) : list string :=
  match Obj.get this.(data) (key option) with
  | VArray items => items
  | _ => []
  end.

(** [item] contains [s] as a substring. *)
Definition contains (item s : string) : Prop :=
  exists pre post, item = (pre ++ s ++ post)%string.

(** Some entry of [items] contains [s]. *)
Definition matches (s : string) (items : list string) : bool :=
  existsb (fun item => includes item s) items.

(** A list option without entries: absent, or the empty array. *)
Definition no_entries (v : value) : bool :=
  match v with
  | VUndefined | VArray [] => true
  | _ => false
  end.

(** A record with nothing in it: no list entry, and no precision or the
    default one. *)
Definition semantically_empty (e : SpecOptions) : bool :=
  no_entries (Obj.get e.(data) ":ignore_for")
  && no_entries (Obj.get e.(data) ":todo")
  && no_entries (Obj.get e.(data) ":warning_todo")
  && match Obj.get e.(data) ":precision" with
     | VUndefined => true
     | v => strict_eq_number v 10
     end.

(** The record of an empty document, [new SpecOptions({})]. *)
Definition emptyRecord : SpecOptions := new_SpecOptions [].

(** What [merge] builds from two typed records. *)
Definition merged (this other : SpecOptions) : SpecOptions :=
  new_SpecOptions
    [ (":ignore_for",
        VArray (entries_of this K_ignore_for ++ entries_of other K_ignore_for));
      (":todo", VArray (entries_of this K_todo ++ entries_of other K_todo));
      (":warning_todo",
        VArray (entries_of this K_warning_todo ++ entries_of other K_warning_todo));
      (":precision",
        nullish (Obj.get other.(data) ":precision")
                (Obj.get this.(data) ":precision")) ].

(** Merging a chain of records into [root] from the left, the way options
    are inherited from the root directory down to the leaf. *)
Fixpoint merge_down (root : SpecOptions) (chain : list SpecOptions)
  : result SpecOptions :=
  match chain with
  | [] => Ok root
  | next :: chain' => m <- merge root next ;; merge_down m chain'
  end.

(** The same chain grouped from the leaf up. *)
Fixpoint merge_up (root : SpecOptions) (chain : list SpecOptions)
  : result SpecOptions :=
  match chain with
  | [] => Ok root
  | next :: chain' => m <- merge_up next chain' ;; merge root m
  end.

(** ** Sample records *)

(** [{':todo': ['libsass']}] *)
Definition parent_options : SpecOptions :=
  new_SpecOptions [(":todo", VArray ["libsass"])].

(** [{':ignore_for': ['dart-sass'], ':precision': 5}] *)
Definition child_options : SpecOptions :=
  new_SpecOptions [(":ignore_for", VArray ["dart-sass"]); (":precision", VNumber 5)].

(** A record with qualified entries, the same implementation under two
    options, and a property the interface does not know. *)
Definition busy_options : SpecOptions :=
  new_SpecOptions
    [ (":warning_todo", VArray ["libsass"]);
      (":author", VArray ["someone"]);
      (":todo", VArray ["dart-sass: unsupported"; "libsass"; "dart-sass"]);
      (":ignore_for", VArray ["dart-sass"]) ].

(** [{':precision': 5}] and [{':precision': 10}] *)
Definition five_digits : SpecOptions := new_SpecOptions [(":precision", VNumber 5)].
Definition ten_digits : SpecOptions := new_SpecOptions [(":precision", VNumber 10)].

(** ** Reading one property *)

(** The callback that [isEmpty] hands to [every]. *)
Definition entry_check (kv : string * value) : result bool :=
  let (k, v) := kv in
  if (k =? ":precision")%string
  then Ok (strict_eq_number v 10)
  else len <- length_of v ;; Ok (strict_eq_number len 0).

(** A property that adds nothing: the precision 10, or an empty array under
    any other name. *)
Definition inert (kv : string * value) : bool :=
  let (k, v) := kv in
  if (k =? ":precision")%string
  then strict_eq_number v 10
  else match v with
       | VArray [] => true
       | _ => false
       end.

(** The four names the interface knows. *)
Definition recognized (k : string) : bool :=
  (k =? ":ignore_for")%string || (k =? ":todo")%string
  || (k =? ":warning_todo")%string || (k =? ":precision")%string.

(** A record without a property of another name. *)
Definition known_only (d : OptionsData) : Prop :=
  forallb (fun kv => recognized (fst kv)) d = true.

(** [{':todo': [], ':precision': 10, ':ignore_for': ['dart-sass']}] *)
Definition nearly_empty_options : SpecOptions :=
  new_SpecOptions
    [ (":todo", VArray []);
      (":precision", VNumber 10);
      (":ignore_for", VArray ["dart-sass"]) ].

(** [{':todo': [], ':precision': 10}] *)
Definition default_options : SpecOptions :=
  new_SpecOptions [(":todo", VArray []); (":precision", VNumber 10)].

(** [{':todo': [], ':warning_todo': undefined}] *)
Definition undefined_options : SpecOptions :=
  new_SpecOptions [(":todo", VArray []); (":warning_todo", VUndefined)].

(** A decoded document that does not follow the interface:
    [{':ignore_for': ['dart-sass'], ':todo': 3}] *)
Definition untyped_options : SpecOptions :=
  new_SpecOptions [(":ignore_for", VArray ["dart-sass"]); (":todo", VNumber 3)].

(* ================================================================== *)
(** * Properties *)

(** ** Substring containment *)

Lemma startsWith_iff (s p : string) :
  startsWith s p = true <-> exists post, s = (p ++ post)%string.
Proof.
  revert s. induction p as [|c p IH]; intros s.
  - split; [intros _; exists s; reflexivity | intros _; destruct s; reflexivity].
  - destruct s as [|d s]; simpl.
    + split; [discriminate | intros [post H]; discriminate H].
    + rewrite andb_true_iff, Ascii.eqb_eq, IH. split.
      * intros [-> [post ->]]. exists post. reflexivity.
      * intros [post H]. injection H as -> ->. split; [reflexivity|].
        exists post. reflexivity.
Qed.

Lemma includes_iff (item impl : string) :
  includes item impl = true <->
  exists pre post, item = (pre ++ impl ++ post)%string.
Proof.
  induction item as [|c item IH]; cbn [includes].
  - rewrite orb_false_r, startsWith_iff. split.
    + intros [post H]. exists EmptyString, post. exact H.
    + intros [pre [post H]]. destruct pre as [|d pre]; [|discriminate H].
      exists post. exact H.
  - rewrite orb_true_iff, startsWith_iff, IH. split.
    + intros [[post H] | [pre [post H]]].
      * exists EmptyString, post. exact H.
      * exists (String c pre), post. simpl. rewrite H. reflexivity.
    + intros [pre [post H]]. destruct pre as [|d pre].
      * left. exists post. exact H.
      * right. simpl in H. injection H as _ H. exists pre, post. exact H.
Qed.

Lemma includes_empty (item : string) : includes item EmptyString = true.
Proof. destruct item; reflexivity. Qed.

(** ** Objects *)

Lemma lookup_set_same (o : object) (k : string) (v : value) :
  Obj.lookup (Obj.set o k v) k = Some v.
Proof.
  induction o as [|[k' v'] o IH]; simpl.
  - rewrite String.eqb_refl. reflexivity.
  - destruct (String.eqb k' k) eqn:E; simpl; rewrite E; [reflexivity | exact IH].
Qed.

Lemma lookup_set_other (o : object) (k k' : string) (v : value) :
  k' <> k -> Obj.lookup (Obj.set o k v) k' = Obj.lookup o k'.
Proof.
  intros Hk. induction o as [|[k0 v0] o IH]; simpl.
  - destruct (String.eqb k k') eqn:E; [|reflexivity].
    apply String.eqb_eq in E. congruence.
  - destruct (String.eqb k0 k) eqn:E; simpl.
    + apply String.eqb_eq in E. subst k0.
      destruct (String.eqb k k') eqn:E'; [|reflexivity].
      apply String.eqb_eq in E'. congruence.
    + rewrite IH. reflexivity.
Qed.

Lemma lookup_delete_same (o : object) (k : string) :
  Obj.lookup (Obj.delete o k) k = None.
Proof.
  induction o as [|[k' v'] o IH]; simpl; [reflexivity|].
  destruct (String.eqb k' k) eqn:E; simpl; [exact IH|].
  rewrite E. exact IH.
Qed.

Lemma lookup_delete_other (o : object) (k k' : string) :
  k' <> k -> Obj.lookup (Obj.delete o k) k' = Obj.lookup o k'.
Proof.
  intros Hk. induction o as [|[k0 v0] o IH]; simpl; [reflexivity|].
  destruct (String.eqb k0 k) eqn:E; simpl.
  - apply String.eqb_eq in E. subst k0.
    destruct (String.eqb k k') eqn:E'; [|exact IH].
    apply String.eqb_eq in E'. congruence.
  - rewrite IH. reflexivity.
Qed.

Lemma get_set_same (o : object) (k : string) (v : value) :
  Obj.get (Obj.set o k v) k = v.
Proof. unfold Obj.get. rewrite lookup_set_same. reflexivity. Qed.

Lemma others_set (o : object) (k : string) (v : value) :
  Obj.others (Obj.set o k v) k = Obj.others o k.
Proof.
  unfold Obj.others. induction o as [|[k' v'] o IH]; simpl.
  - rewrite String.eqb_refl. reflexivity.
  - destruct (String.eqb k' k) eqn:E; simpl; rewrite E; simpl.
    + reflexivity.
    + rewrite IH. reflexivity.
Qed.

Lemma others_delete (o : object) (k : string) :
  Obj.others (Obj.delete o k) k = Obj.others o k.
Proof.
  unfold Obj.others. induction o as [|[k' v'] o IH]; simpl; [reflexivity|].
  destruct (String.eqb k' k) eqn:E; simpl; [exact IH|].
  rewrite E. simpl. rewrite IH. reflexivity.
Qed.

(** ** Arrays *)

Lemma findIndex_bounds {A : Type} (p : A -> bool) (l : list A) :
  -1 <= findIndex p l < Z.of_nat (List.length l).
Proof.
  induction l as [|x l IH]; simpl List.length; simpl findIndex; [lia|].
  destruct (p x); [lia|].
  destruct (findIndex p l =? -1) eqn:E; lia.
Qed.

Lemma findIndex_none {A : Type} (p : A -> bool) (l : list A) :
  findIndex p l = -1 <-> existsb p l = false.
Proof.
  induction l as [|x l IH]; simpl; [tauto|].
  destruct (p x); simpl.
  - split; [lia | discriminate].
  - rewrite <- IH. pose proof (findIndex_bounds p l) as B.
    destruct (findIndex p l =? -1) eqn:E.
    + apply Z.eqb_eq in E. tauto.
    + apply Z.eqb_neq in E. split; [lia | tauto].
Qed.

Lemma findIndex_first {A : Type} (p : A -> bool) (pre post : list A) (x : A) :
  existsb p pre = false -> p x = true ->
  findIndex p (pre ++ x :: post) = Z.of_nat (List.length pre).
Proof.
  intros Hpre Hx. induction pre as [|y pre IH]; simpl.
  - rewrite Hx. reflexivity.
  - simpl in Hpre. apply orb_false_iff in Hpre as [Hy Hpre].
    rewrite Hy, (IH Hpre).
    destruct (Z.of_nat (List.length pre) =? -1) eqn:E; [|lia].
    apply Z.eqb_eq in E. lia.
Qed.

Lemma slice_front {A : Type} (pre post : list A) :
  slice (pre ++ post) 0 (Z.of_nat (List.length pre)) = pre.
Proof.
  unfold slice. rewrite length_app, Nat2Z.inj_add. simpl (0 <? 0).
  destruct (Z.ltb_spec (Z.of_nat (List.length pre)) 0); [lia|].
  rewrite Z.min_l, Z.min_l by lia. simpl skipn.
  rewrite Z.sub_0_r, Nat2Z.id, firstn_app, Nat.sub_diag, firstn_all.
  simpl. apply app_nil_r.
Qed.

Lemma slice_back {A : Type} (pre post : list A) (x : A) :
  slice (pre ++ x :: post) (Z.of_nat (List.length pre) + 1)
        (Z.of_nat (List.length (pre ++ x :: post))) = post.
Proof.
  unfold slice. rewrite length_app. simpl List.length.
  set (n := List.length pre). set (m := List.length post).
  destruct (Z.ltb_spec (Z.of_nat n + 1) 0); [lia|].
  destruct (Z.ltb_spec (Z.of_nat (n + S m)) 0); [lia|].
  rewrite Z.min_l, Z.min_l by lia.
  replace (Z.to_nat (Z.of_nat n + 1)) with (n + 1)%nat by lia.
  replace (Z.to_nat (Z.of_nat (n + S m) - (Z.of_nat n + 1))) with m by lia.
  replace (pre ++ x :: post) with ((pre ++ [x]) ++ post)
    by (rewrite <- app_assoc; reflexivity).
  rewrite skipn_app.
  replace (List.length (pre ++ [x])) with (n + 1)%nat
    by (rewrite length_app; reflexivity).
  rewrite Nat.sub_diag. simpl skipn at 2.
  rewrite skipn_all2 by (rewrite length_app; simpl; fold n; lia).
  simpl. apply firstn_all.
Qed.

(** ** Typed records *)

Lemma matches_iff (s : string) (items : list string) :
  matches s items = true <-> exists item, In item items /\ contains item s.
Proof.
  unfold matches, contains. rewrite existsb_exists.
  split; intros [item [Hin H]]; exists item; split; try exact Hin;
    apply includes_iff; exact H.
Qed.

Lemma well_typed_list (d : OptionsData) (option : OptionKey) :
  well_typed d ->
  Obj.get d (key option) = VUndefined \/
  exists items, Obj.get d (key option) = VArray items.
Proof.
  unfold well_typed, Obj.get. induction d as [|[k v] d IH]; simpl.
  - intros _. left. reflexivity.
  - intros H. apply andb_true_iff in H as [Hkv Hd].
    destruct (String.eqb k (key option)) eqn:E; [|exact (IH Hd)].
    apply String.eqb_eq in E. subst k.
    destruct v as [|n|items].
    + left. reflexivity.
    + destruct option; discriminate Hkv.
    + right. exists items. reflexivity.
Qed.

Lemma well_typed_precision (d : OptionsData) :
  well_typed d ->
  Obj.get d ":precision" = VUndefined \/
  exists n, Obj.get d ":precision" = VNumber n.
Proof.
  unfold well_typed, Obj.get. induction d as [|[k v] d IH]; simpl.
  - intros _. left. reflexivity.
  - intros H. apply andb_true_iff in H as [Hkv Hd].
    destruct (String.eqb k ":precision") eqn:E; [|exact (IH Hd)].
    apply String.eqb_eq in E. subst k.
    destruct v as [|n|items].
    + left. reflexivity.
    + right. exists n. reflexivity.
    + discriminate Hkv.
Qed.

Lemma well_typed_set (d : OptionsData) (option : OptionKey) (items : list string) :
  well_typed d -> well_typed (Obj.set d (key option) (VArray items)).
Proof.
  unfold well_typed. induction d as [|[k v] d IH]; simpl.
  - intros _. destruct option; reflexivity.
  - intros H. apply andb_true_iff in H as [Hkv Hd].
    destruct (String.eqb k (key option)) eqn:E; simpl.
    + apply String.eqb_eq in E. subst k. rewrite Hd.
      destruct option; reflexivity.
    + unfold entry_typed in Hkv. rewrite Hkv. exact (IH Hd).
Qed.

Lemma well_typed_delete (d : OptionsData) (k : string) :
  well_typed d -> well_typed (Obj.delete d k).
Proof.
  unfold well_typed. induction d as [|[k' v] d IH]; simpl; [reflexivity|].
  intros H. apply andb_true_iff in H as [Hkv Hd].
  destruct (String.eqb k' k); simpl; [exact (IH Hd)|].
  unfold entry_typed in Hkv. rewrite Hkv. exact (IH Hd).
Qed.

(** On a typed record the spread of a list option cannot throw. *)
Lemma spread_typed (this : SpecOptions) (option : OptionKey) :
  well_typed this.(data) ->
  spread (nullish (Obj.get this.(data) (key option)) (VArray []))
  = Ok (entries_of this option).
Proof.
  intros H. unfold entries_of.
  destruct (well_typed_list _ option H) as [E | [items E]]; rewrite E; reflexivity.
Qed.

Lemma hasForImpl_typed (this : SpecOptions) (impl : string) (option : OptionKey) :
  well_typed this.(data) ->
  hasForImpl this impl option = Ok (matches impl (entries_of this option)).
Proof.
  intros H. unfold hasForImpl, entries_of.
  destruct (well_typed_list _ option H) as [E | [items E]]; rewrite E; reflexivity.
Qed.

Lemma getMode_typed (this : SpecOptions) (impl : string) :
  well_typed this.(data) ->
  getMode this impl
  = Ok (if matches impl (entries_of this K_ignore_for) then Some Mode_ignore
        else if matches impl (entries_of this K_todo) then Some Mode_todo
        else None).
Proof.
  intros H. unfold getMode. rewrite !hasForImpl_typed by exact H. simpl.
  destruct (matches impl (entries_of this K_ignore_for)); [reflexivity|].
  destruct (matches impl (entries_of this K_todo)); reflexivity.
Qed.

Lemma merge_typed (this other : SpecOptions) :
  well_typed this.(data) -> well_typed other.(data) ->
  merge this other = Ok (merged this other).
Proof.
  intros Ht Ho. unfold merge.
  rewrite !spread_typed by assumption. reflexivity.
Qed.

Lemma merged_well_typed (this other : SpecOptions) :
  well_typed this.(data) -> well_typed other.(data) ->
  well_typed (merged this other).(data).
Proof.
  intros Ht Ho. unfold well_typed. simpl.
  destruct (well_typed_precision _ Ho) as [E | [n E]]; rewrite E; simpl;
    [|reflexivity].
  destruct (well_typed_precision _ Ht) as [E' | [n E']]; rewrite E'; reflexivity.
Qed.

Lemma entries_of_merged (this other : SpecOptions) (option : OptionKey) :
  entries_of (merged this other) option
  = entries_of this option ++ entries_of other option.
Proof. destruct option; reflexivity. Qed.

Lemma precision_of_merged (this other : SpecOptions) :
  Obj.get (merged this other).(data) ":precision"
  = nullish (Obj.get other.(data) ":precision") (Obj.get this.(data) ":precision").
Proof. reflexivity. Qed.

(** ** merge *)

(** C3, as stated, fails in its last words: when neither record has a
    precision the result of [merge] is not without one, it has the property
    [:precision] with the value [undefined]. *)
Lemma merge_writes_undefined_precision :
  well_typed parent_options.(data) /\ well_typed busy_options.(data) /\
  Obj.has parent_options.(data) ":precision" = false /\
  Obj.has busy_options.(data) ":precision" = false /\
  exists m,
    merge parent_options busy_options = Ok m /\
    Obj.has m.(data) ":precision" = true /\
    Obj.lookup m.(data) ":precision" = Some VUndefined.
Proof.
  repeat split. eexists. repeat split.
Qed.

(** C3, amended: on records [a] and [b], [a.merge(b)] returns a record whose
    every list option is the entries of [a] (none when the option is absent)
    followed by the entries of [b] (likewise), in order and with nothing
    dropped, so that an entry occurs as often as in [a] and [b] together;
    the result always has the property [:precision], whose value is the
    precision of [b] when [b] has one, and otherwise what [a] has, which is
    [undefined] when [a] has none either. *)
Theorem merge_concatenates_and_overrides (a b : SpecOptions) :
  well_typed a.(data) -> well_typed b.(data) ->
  exists m,
    merge a b = Ok m /\
    (forall option,
        Obj.get m.(data) (key option)
        = VArray (entries_of a option ++ entries_of b option)) /\
    (forall option x,
        count_occ string_dec (entries_of m option) x
        = (count_occ string_dec (entries_of a option) x
           + count_occ string_dec (entries_of b option) x)%nat) /\
    (forall n, Obj.get b.(data) ":precision" = VNumber n ->
               Obj.get m.(data) ":precision" = VNumber n) /\
    (Obj.get b.(data) ":precision" = VUndefined ->
     Obj.get m.(data) ":precision" = Obj.get a.(data) ":precision") /\
    Obj.has m.(data) ":precision" = true /\
    (Obj.get a.(data) ":precision" = VUndefined ->
     Obj.get b.(data) ":precision" = VUndefined ->
     Obj.lookup m.(data) ":precision" = Some VUndefined).
Proof.
  intros Ha Hb. exists (merged a b).
  split; [exact (merge_typed a b Ha Hb)|].
  split; [intros option; destruct option; reflexivity|].
  split.
  - intros option x. rewrite entries_of_merged. apply count_occ_app.
  - rewrite precision_of_merged. split; [|split; [|split]].
    + intros n E. rewrite E. reflexivity.
    + intros E. rewrite E. reflexivity.
    + reflexivity.
    + intros Ea Eb. unfold merged. cbn [data Obj.lookup].
      rewrite Ea, Eb. reflexivity.
Qed.

Lemma merge_concatenates_and_overrides_witness :
  well_typed busy_options.(data) /\ well_typed child_options.(data) /\
  exists m,
    merge busy_options child_options = Ok m /\
    (forall option,
        Obj.get m.(data) (key option)
        = VArray (entries_of busy_options option
                  ++ entries_of child_options option)) /\
    (forall option x,
        count_occ string_dec (entries_of m option) x
        = (count_occ string_dec (entries_of busy_options option) x
           + count_occ string_dec (entries_of child_options option) x)%nat) /\
    (forall n, Obj.get child_options.(data) ":precision" = VNumber n ->
               Obj.get m.(data) ":precision" = VNumber n) /\
    (Obj.get child_options.(data) ":precision" = VUndefined ->
     Obj.get m.(data) ":precision" = Obj.get busy_options.(data) ":precision") /\
    Obj.has m.(data) ":precision" = true /\
    (Obj.get busy_options.(data) ":precision" = VUndefined ->
     Obj.get child_options.(data) ":precision" = VUndefined ->
     Obj.lookup m.(data) ":precision" = Some VUndefined).
Proof.
  split; [reflexivity|]. split; [reflexivity|].
  apply (merge_concatenates_and_overrides busy_options child_options);
    reflexivity.
Defined.

(** ** getMode and hasForImpl *)

(** C4: on a record, [getMode(s)] is ['ignore'] when
    [hasForImpl(s, ':ignore_for')] holds, else ['todo'] when
    [hasForImpl(s, ':todo')] holds, else [undefined]; a name that matches
    both lists gets ['ignore']. *)
Theorem getMode_ignore_before_todo (this : SpecOptions) (s : string) :
  well_typed this.(data) ->
  exists ignored deferred,
    hasForImpl this s K_ignore_for = Ok ignored /\
    hasForImpl this s K_todo = Ok deferred /\
    getMode this s
    = Ok (if ignored then Some Mode_ignore
          else if deferred then Some Mode_todo
          else None) /\
    (ignored = true -> deferred = true ->
     getMode this s = Ok (Some Mode_ignore)).
Proof.
  intros H.
  exists (matches s (entries_of this K_ignore_for)),
         (matches s (entries_of this K_todo)).
  rewrite !hasForImpl_typed by exact H. rewrite (getMode_typed this s H).
  repeat split. intros -> _. reflexivity.
Qed.

Lemma getMode_ignore_before_todo_witness :
  well_typed busy_options.(data) /\
  exists ignored deferred,
    hasForImpl busy_options "dart-sass" K_ignore_for = Ok ignored /\
    hasForImpl busy_options "dart-sass" K_todo = Ok deferred /\
    getMode busy_options "dart-sass"
    = Ok (if ignored then Some Mode_ignore
          else if deferred then Some Mode_todo
          else None) /\
    (ignored = true -> deferred = true ->
     getMode busy_options "dart-sass" = Ok (Some Mode_ignore)).
Proof.
  split; [reflexivity|].
  apply (getMode_ignore_before_todo busy_options "dart-sass"). reflexivity.
Defined.

(** C5: on a record, [hasForImpl(s, option)] is [false] when the option is
    absent, and otherwise [true] exactly when some entry of the option
    contains [s] as a substring; the entry ["dart-sass: unsupported"]
    matches the name ["dart-sass"]. *)
Theorem hasForImpl_substring (this : SpecOptions) (s : string) (option : OptionKey) :
  well_typed this.(data) ->
  exists found,
    hasForImpl this s option = Ok found /\
    match Obj.get this.(data) (key option) with
    | VArray items =>
        found = true <-> exists item, In item items /\ contains item s
    | _ => found = false
    end /\
    (In "dart-sass: unsupported" (entries_of this option) ->
     hasForImpl this "dart-sass" option = Ok true).
Proof.
  intros H. exists (matches s (entries_of this option)).
  split; [exact (hasForImpl_typed this s option H)|]. split.
  - unfold entries_of.
    destruct (well_typed_list _ option H) as [E | [items E]]; rewrite E.
    + reflexivity.
    + apply matches_iff.
  - intros Hin. rewrite (hasForImpl_typed this _ option H). f_equal.
    apply matches_iff. exists "dart-sass: unsupported".
    split; [exact Hin|]. exists "", ": unsupported". reflexivity.
Qed.

Lemma hasForImpl_substring_witness :
  well_typed busy_options.(data) /\
  exists found,
    hasForImpl busy_options "sass" K_todo = Ok found /\
    match Obj.get busy_options.(data) (key K_todo) with
    | VArray items =>
        found = true <-> exists item, In item items /\ contains item "sass"
    | _ => found = false
    end /\
    (In "dart-sass: unsupported" (entries_of busy_options K_todo) ->
     hasForImpl busy_options "dart-sass" K_todo = Ok true).
Proof.
  split; [reflexivity|].
  apply (hasForImpl_substring busy_options "sass" K_todo). reflexivity.
Defined.

(** ** removeImpl and addImpl *)

Lemma matches_none (s : string) (items : list string) :
  (forall item, In item items -> ~ contains item s) -> matches s items = false.
Proof.
  intros H. destruct (matches s items) eqn:E; [|reflexivity].
  apply matches_iff in E as [item [Hin Hc]]. destruct (H item Hin Hc).
Qed.

Lemma not_contains (item s : string) :
  includes item s = false -> ~ contains item s.
Proof.
  intros E Hc. apply includes_iff in Hc. congruence.
Qed.

(** The three ways [removeImpl] returns on a typed record. *)
Lemma removeImpl_cases (this : SpecOptions) (s : string) (option : OptionKey) :
  well_typed this.(data) ->
  removeImpl this s option = Ok this \/
  removeImpl this s option
  = Ok (new_SpecOptions (Obj.delete this.(data) (key option))) \/
  exists items,
    removeImpl this s option
    = Ok (new_SpecOptions (Obj.set this.(data) (key option) (VArray items))).
Proof.
  intros H. unfold removeImpl.
  destruct (well_typed_list _ option H) as [E | [items E]]; rewrite E; simpl.
  - left. reflexivity.
  - destruct (findIndex _ items =? -1); [left; reflexivity|].
    destruct (Z.of_nat (List.length items) =? 1).
    + right. left. reflexivity.
    + right. right. eexists. reflexivity.
Qed.

Lemma removeImpl_first (this : SpecOptions) (s : string) (option : OptionKey)
      (pre post : list string) (x : string) :
  Obj.get this.(data) (key option) = VArray (pre ++ x :: post) ->
  matches s pre = false -> includes x s = true ->
  removeImpl this s option
  = Ok (match pre ++ post with
        | [] => new_SpecOptions (Obj.delete this.(data) (key option))
        | _ :: _ =>
            new_SpecOptions
              (Obj.set this.(data) (key option) (VArray (pre ++ post)))
        end).
Proof.
  intros E Hpre Hx. unfold removeImpl. rewrite E. simpl.
  rewrite (findIndex_first _ pre post x Hpre Hx).
  destruct (Z.eqb_spec (Z.of_nat (List.length pre)) (-1)) as [Hneg|_]; [lia|].
  rewrite slice_front, slice_back.
  rewrite length_app. simpl List.length.
  destruct (Z.eqb_spec (Z.of_nat (List.length pre + S (List.length post))) 1)
    as [Hone|Hmore].
  - destruct pre; [|simpl in Hone; lia].
    destruct post; [reflexivity | simpl in Hone; lia].
  - destruct pre as [|y pre]; [|reflexivity].
    destruct post as [|y post]; [simpl in Hmore; lia | reflexivity].
Qed.

(** C6: on a record, [removeImpl(s, option)] returns the record itself when
    the option is absent or none of its entries contains [s]; when the
    option has one entry and it contains [s], the result has no such
    property at all; otherwise the first entry that contains [s] is taken
    out and the entries before and after it stay as they are, later matches
    included. *)
Theorem removeImpl_first_match (this : SpecOptions) (s : string) (option : OptionKey) :
  well_typed this.(data) ->
  (exists r, removeImpl this s option = Ok r /\ well_typed r.(data)) /\
  (Obj.get this.(data) (key option) = VUndefined ->
   removeImpl this s option = Ok this) /\
  (forall items,
      Obj.get this.(data) (key option) = VArray items ->
      (forall item, In item items -> ~ contains item s) ->
      removeImpl this s option = Ok this) /\
  (forall x,
      Obj.get this.(data) (key option) = VArray [x] ->
      contains x s ->
      exists r,
        removeImpl this s option = Ok r /\
        r.(data) = Obj.delete this.(data) (key option) /\
        Obj.has r.(data) (key option) = false) /\
  (forall pre x post,
      Obj.get this.(data) (key option) = VArray (pre ++ x :: post) ->
      (forall item, In item pre -> ~ contains item s) ->
      contains x s ->
      pre ++ post <> [] ->
      exists r,
        removeImpl this s option = Ok r /\
        r.(data) = Obj.set this.(data) (key option) (VArray (pre ++ post)) /\
        Obj.get r.(data) (key option) = VArray (pre ++ post)).
Proof.
  intros H. repeat split.
  - destruct (removeImpl_cases this s option H) as [E | [E | [items E]]];
      rewrite E; eexists; (split; [reflexivity|]); simpl.
    + exact H.
    + apply well_typed_delete. exact H.
    + apply well_typed_set. exact H.
  - intros E. unfold removeImpl. rewrite E. reflexivity.
  - intros items E Hnone. unfold removeImpl. rewrite E. simpl.
    apply matches_none in Hnone. apply findIndex_none in Hnone.
    unfold matches in Hnone. rewrite Hnone. reflexivity.
  - intros x E Hx. apply includes_iff in Hx.
    exists (new_SpecOptions (Obj.delete this.(data) (key option))).
    split; [exact (removeImpl_first this s option [] [] x E eq_refl Hx)|].
    split; [reflexivity|].
    unfold Obj.has. simpl. rewrite lookup_delete_same. reflexivity.
  - intros pre x post E Hpre Hx Hrest.
    apply matches_none in Hpre. apply includes_iff in Hx.
    rewrite (removeImpl_first this s option pre post x E Hpre Hx).
    destruct (pre ++ post) as [|y rest] eqn:R; [congruence|].
    eexists. split; [reflexivity|]. split; [reflexivity|].
    simpl. apply get_set_same.
Qed.

Lemma removeImpl_first_match_witness :
  well_typed busy_options.(data) /\
  removeImpl busy_options "dart-sass" K_warning_todo = Ok busy_options /\
  (exists r,
      removeImpl busy_options "dart-sass" K_ignore_for = Ok r /\
      r.(data) = Obj.delete busy_options.(data) (key K_ignore_for) /\
      Obj.has r.(data) (key K_ignore_for) = false) /\
  (exists r,
      removeImpl busy_options "dart-sass" K_todo = Ok r /\
      r.(data) = Obj.set busy_options.(data) (key K_todo)
                         (VArray ([] ++ ["libsass"; "dart-sass"])) /\
      Obj.get r.(data) (key K_todo) = VArray ([] ++ ["libsass"; "dart-sass"])).
Proof.
  assert (T : well_typed busy_options.(data)) by reflexivity.
  split; [exact T|].
  split; [|split].
  - apply (proj1 (proj2 (proj2 (removeImpl_first_match
                                  busy_options "dart-sass" K_warning_todo T)))
             ["libsass"]); [reflexivity|].
    intros item [<- | []]. apply not_contains. reflexivity.
  - apply (proj1 (proj2 (proj2 (proj2 (removeImpl_first_match
                                  busy_options "dart-sass" K_ignore_for T))))
             "dart-sass"); [reflexivity|].
    exists "", "". reflexivity.
  - apply (proj2 (proj2 (proj2 (proj2 (removeImpl_first_match
                                  busy_options "dart-sass" K_todo T))))
             [] "dart-sass: unsupported" ["libsass"; "dart-sass"]).
    + reflexivity.
    + intros item [].
    + exists "", ": unsupported". reflexivity.
    + discriminate.
Defined.

(** C9: with the empty string as the name, [hasForImpl] holds exactly when
    the option is present and has an entry, whatever the entries are, and
    [getMode("")] is ['ignore'] as soon as [:ignore_for] has an entry. *)
Theorem hasForImpl_empty_name (this : SpecOptions) (option : OptionKey) :
  well_typed this.(data) ->
  exists found,
    hasForImpl this "" option = Ok found /\
    (found = true <->
     exists x items, Obj.get this.(data) (key option) = VArray (x :: items)) /\
    (forall x items,
        Obj.get this.(data) ":ignore_for" = VArray (x :: items) ->
        getMode this "" = Ok (Some Mode_ignore)).
Proof.
  intros H. exists (matches "" (entries_of this option)).
  split; [exact (hasForImpl_typed this "" option H)|]. split.
  - unfold entries_of.
    destruct (well_typed_list _ option H) as [E | [items E]]; rewrite E.
    + split; [discriminate | intros [x [items E']]; discriminate E'].
    + destruct items as [|x items]; simpl.
      * split; [discriminate | intros [x [items E']]; discriminate E'].
      * rewrite includes_empty. simpl.
        split; [intros _; exists x, items; reflexivity | reflexivity].
  - intros x items E. rewrite (getMode_typed this "" H).
    unfold entries_of. change (key K_ignore_for) with ":ignore_for".
    rewrite E. simpl. rewrite includes_empty. reflexivity.
Qed.

Lemma hasForImpl_empty_name_witness :
  well_typed busy_options.(data) /\
  exists found,
    hasForImpl busy_options "" K_ignore_for = Ok found /\
    (found = true <->
     exists x items,
       Obj.get busy_options.(data) (key K_ignore_for) = VArray (x :: items)) /\
    (forall x items,
        Obj.get busy_options.(data) ":ignore_for" = VArray (x :: items) ->
        getMode busy_options "" = Ok (Some Mode_ignore)).
Proof.
  split; [reflexivity|].
  apply (hasForImpl_empty_name busy_options K_ignore_for). reflexivity.
Defined.

Lemma addImpl_typed (this : SpecOptions) (s : string) (option : OptionKey) :
  well_typed this.(data) ->
  addImpl this s option
  = Ok (new_SpecOptions
          (Obj.set this.(data) (key option)
                   (VArray (entries_of this option ++ [s])))).
Proof.
  intros H. unfold addImpl. rewrite spread_typed by exact H. reflexivity.
Qed.

(** C10: on a record, [addImpl] and [removeImpl] touch the selected option
    only: every other property of the result, the other two list options,
    [:precision] and the properties the interface does not know, is the
    property of the input, with the same value and in the same place. *)
Theorem addImpl_removeImpl_frame (this : SpecOptions) (s : string) (option : OptionKey) :
  well_typed this.(data) ->
  exists added removed,
    addImpl this s option = Ok added /\
    removeImpl this s option = Ok removed /\
    Obj.others added.(data) (key option) = Obj.others this.(data) (key option) /\
    Obj.others removed.(data) (key option) = Obj.others this.(data) (key option) /\
    (forall k, k <> key option ->
               Obj.lookup added.(data) k = Obj.lookup this.(data) k /\
               Obj.lookup removed.(data) k = Obj.lookup this.(data) k).
Proof.
  intros H. eexists.
  destruct (removeImpl_cases this s option H) as [E | [E | [items E]]];
    eexists; rewrite E, (addImpl_typed this s option H);
    (split; [reflexivity|]); (split; [reflexivity|]); simpl;
    rewrite others_set.
  - repeat split. apply lookup_set_other. assumption.
  - rewrite others_delete. repeat split.
    + apply lookup_set_other. assumption.
    + apply lookup_delete_other. assumption.
  - rewrite others_set. repeat split; apply lookup_set_other; assumption.
Qed.

Lemma addImpl_removeImpl_frame_witness :
  well_typed busy_options.(data) /\
  exists added removed,
    addImpl busy_options "dart-sass" K_todo = Ok added /\
    removeImpl busy_options "dart-sass" K_todo = Ok removed /\
    Obj.others added.(data) (key K_todo)
    = Obj.others busy_options.(data) (key K_todo) /\
    Obj.others removed.(data) (key K_todo)
    = Obj.others busy_options.(data) (key K_todo) /\
    (forall k, k <> key K_todo ->
               Obj.lookup added.(data) k = Obj.lookup busy_options.(data) k /\
               Obj.lookup removed.(data) k = Obj.lookup busy_options.(data) k).
Proof.
  split; [reflexivity|].
  apply (addImpl_removeImpl_frame busy_options "dart-sass" K_todo). reflexivity.
Defined.

(** ** Merging with an empty record *)

Lemma semantically_empty_entries (e : SpecOptions) (option : OptionKey) :
  semantically_empty e = true -> entries_of e option = [].
Proof.
  unfold semantically_empty, entries_of. intros H.
  apply andb_true_iff in H as [H _].
  apply andb_true_iff in H as [H Hw].
  apply andb_true_iff in H as [Hi Ht].
  assert (G : forall v, no_entries v = true ->
                     match v with VArray items => items | _ => [] end = []).
  { intros [|n|[|x items]]; (reflexivity || discriminate). }
  destruct option; apply G; assumption.
Qed.

Lemma semantically_empty_precision (e : SpecOptions) :
  semantically_empty e = true ->
  Obj.get e.(data) ":precision" = VUndefined \/
  Obj.get e.(data) ":precision" = VNumber 10.
Proof.
  unfold semantically_empty. intros H. apply andb_true_iff in H as [_ H].
  destruct (Obj.get e.(data) ":precision") as [|n|items].
  - left. reflexivity.
  - right. simpl in H. apply Z.eqb_eq in H. congruence.
  - discriminate H.
Qed.

(** The queries of a typed record read the entries of its list options and
    its precision, nothing else. *)
Lemma queries_agree (x y : SpecOptions) :
  well_typed x.(data) -> well_typed y.(data) ->
  (forall option, entries_of x option = entries_of y option) ->
  forall s, getMode x s = getMode y s /\ isWarningTodo x s = isWarningTodo y s.
Proof.
  intros Hx Hy E s. unfold isWarningTodo.
  rewrite (getMode_typed x s Hx), (getMode_typed y s Hy).
  rewrite (hasForImpl_typed x s _ Hx), (hasForImpl_typed y s _ Hy).
  rewrite !E. split; reflexivity.
Qed.

Lemma precision_merged (this other : SpecOptions) :
  precision (merged this other)
  = nullish (Obj.get other.(data) ":precision") (precision this).
Proof.
  unfold precision. rewrite precision_of_merged.
  destruct (Obj.get other.(data) ":precision"); reflexivity.
Qed.

Lemma merged_nothing_right (r e : SpecOptions) :
  (forall option, entries_of e option = []) ->
  Obj.get e.(data) ":precision" = VUndefined ->
  merged r e = merged e r.
Proof.
  intros E P. unfold merged. rewrite !E, P, !app_nil_r. simpl.
  destruct (Obj.get r.(data) ":precision"); reflexivity.
Qed.

Lemma merged_semantically_empty (r e : SpecOptions) :
  well_typed r.(data) -> well_typed e.(data) -> semantically_empty e = true ->
  (forall option,
      entries_of (merged r e) option = entries_of r option /\
      entries_of (merged e r) option = entries_of r option) /\
  (forall s,
      getMode (merged r e) s = getMode r s /\
      getMode (merged e r) s = getMode r s /\
      isWarningTodo (merged r e) s = isWarningTodo r s /\
      isWarningTodo (merged e r) s = isWarningTodo r s) /\
  precision (merged e r) = precision r /\
  precision (merged r e)
  = nullish (Obj.get e.(data) ":precision") (precision r).
Proof.
  intros Hr He Hempty.
  assert (E : forall option,
             entries_of (merged r e) option = entries_of r option /\
             entries_of (merged e r) option = entries_of r option).
  { intros option. rewrite !entries_of_merged.
    rewrite (semantically_empty_entries e option Hempty), app_nil_r.
    split; reflexivity. }
  split; [exact E|]. split; [|split].
  - intros s.
    pose proof (merged_well_typed r e Hr He) as Hre.
    pose proof (merged_well_typed e r He Hr) as Her.
    destruct (queries_agree (merged r e) r Hre Hr (fun o => proj1 (E o)) s).
    destruct (queries_agree (merged e r) r Her Hr (fun o => proj2 (E o)) s).
    repeat split; assumption.
  - rewrite precision_merged. unfold precision.
    destruct (semantically_empty_precision e Hempty) as [P | P]; rewrite P;
      destruct (Obj.get r.(data) ":precision"); reflexivity.
  - apply precision_merged.
Qed.

(** C2: for a record [r], [r.merge(emptyRecord)] and [emptyRecord.merge(r)]
    answer [getMode], [isWarningTodo] and [precision] as [r] does, for every
    implementation name. *)
Theorem merge_emptyRecord_observational (r : SpecOptions) :
  well_typed r.(data) ->
  exists right left,
    merge r emptyRecord = Ok right /\
    merge emptyRecord r = Ok left /\
    (forall s,
        getMode right s = getMode r s /\
        isWarningTodo right s = isWarningTodo r s /\
        getMode left s = getMode r s /\
        isWarningTodo left s = isWarningTodo r s) /\
    precision right = precision r /\
    precision left = precision r.
Proof.
  intros Hr.
  assert (He : well_typed emptyRecord.(data)) by reflexivity.
  exists (merged r emptyRecord), (merged emptyRecord r).
  split; [exact (merge_typed r emptyRecord Hr He)|].
  split; [exact (merge_typed emptyRecord r He Hr)|].
  destruct (merged_semantically_empty r emptyRecord Hr He eq_refl)
    as [_ [Q [Pl Pr]]].
  split; [|split; [exact Pr | exact Pl]].
  intros s. destruct (Q s) as [Q1 [Q2 [Q3 Q4]]]. repeat split; assumption.
Qed.

Lemma merge_emptyRecord_observational_witness :
  well_typed child_options.(data) /\
  exists right left,
    merge child_options emptyRecord = Ok right /\
    merge emptyRecord child_options = Ok left /\
    (forall s,
        getMode right s = getMode child_options s /\
        isWarningTodo right s = isWarningTodo child_options s /\
        getMode left s = getMode child_options s /\
        isWarningTodo left s = isWarningTodo child_options s) /\
    precision right = precision child_options /\
    precision left = precision child_options.
Proof.
  split; [reflexivity|].
  apply (merge_emptyRecord_observational child_options). reflexivity.
Defined.

(** C1, as stated, fails: [{':precision': 10}] is semantically empty, yet
    merging it into [{':precision': 5}] turns the precision into 10 and
    makes a record that is not empty into an empty one; and merging the
    record of an empty document into itself gives a record with four
    properties whose [isEmpty] is [false], while the record itself has none
    and is empty. *)
Lemma merge_semantically_empty_changes :
  well_typed five_digits.(data) /\ well_typed ten_digits.(data) /\
  semantically_empty ten_digits = true /\
  (exists m,
      merge five_digits ten_digits = Ok m /\
      precision m = VNumber 10 /\ precision five_digits = VNumber 5 /\
      isEmpty m = Ok true /\ isEmpty five_digits = Ok false) /\
  semantically_empty emptyRecord = true /\
  (exists m,
      merge emptyRecord emptyRecord = Ok m /\
      m <> emptyRecord /\
      isEmpty m = Ok false /\ isEmpty emptyRecord = Ok true).
Proof.
  repeat split.
  - eexists. repeat split.
  - eexists. repeat split. discriminate.
Qed.

(** C1, amended: for a semantically empty record [e] and a record [r], both
    [r.merge(e)] and [e.merge(r)] return a record whose list options hold
    the entries of [r] and nothing else, and which answers [getMode] and
    [isWarningTodo] as [r] does; [precision()] of [e.merge(r)] is that of
    [r]; [precision()] of [r.merge(e)] is the precision of [e] when [e] has
    one (that is 10) and that of [r] otherwise, in which case the two merges
    return the same record. *)
Theorem merge_semantically_empty (r e : SpecOptions) :
  well_typed r.(data) -> well_typed e.(data) -> semantically_empty e = true ->
  exists right left,
    merge r e = Ok right /\
    merge e r = Ok left /\
    (forall option,
        entries_of right option = entries_of r option /\
        entries_of left option = entries_of r option) /\
    (forall s,
        getMode right s = getMode r s /\
        getMode left s = getMode r s /\
        isWarningTodo right s = isWarningTodo r s /\
        isWarningTodo left s = isWarningTodo r s) /\
    precision left = precision r /\
    precision right = nullish (Obj.get e.(data) ":precision") (precision r) /\
    (Obj.get e.(data) ":precision" = VUndefined ->
     right = left /\ precision right = precision r).
Proof.
  intros Hr He Hempty. exists (merged r e), (merged e r).
  split; [exact (merge_typed r e Hr He)|].
  split; [exact (merge_typed e r He Hr)|].
  destruct (merged_semantically_empty r e Hr He Hempty) as [E [Q [Pl Pr]]].
  repeat (split; [assumption|]).
  intros P. split.
  - apply merged_nothing_right; [|exact P].
    intros option. exact (semantically_empty_entries e option Hempty).
  - rewrite Pr, P. reflexivity.
Qed.

Lemma merge_semantically_empty_witness :
  well_typed busy_options.(data) /\ well_typed ten_digits.(data) /\
  semantically_empty ten_digits = true /\
  exists right left,
    merge busy_options ten_digits = Ok right /\
    merge ten_digits busy_options = Ok left /\
    (forall option,
        entries_of right option = entries_of busy_options option /\
        entries_of left option = entries_of busy_options option) /\
    (forall s,
        getMode right s = getMode busy_options s /\
        getMode left s = getMode busy_options s /\
        isWarningTodo right s = isWarningTodo busy_options s /\
        isWarningTodo left s = isWarningTodo busy_options s) /\
    precision left = precision busy_options /\
    precision right
    = nullish (Obj.get ten_digits.(data) ":precision") (precision busy_options) /\
    (Obj.get ten_digits.(data) ":precision" = VUndefined ->
     right = left /\ precision right = precision busy_options).
Proof.
  split; [reflexivity|]. split; [reflexivity|]. split; [reflexivity|].
  apply (merge_semantically_empty busy_options ten_digits); reflexivity.
Defined.

(** ** Associativity of merge *)

Lemma merged_assoc (a b c : SpecOptions) :
  merged (merged a b) c = merged a (merged b c).
Proof.
  unfold merged at 1 3. rewrite !entries_of_merged, !precision_of_merged.
  rewrite <- !app_assoc.
  destruct (Obj.get c.(data) ":precision"); reflexivity.
Qed.

Lemma merge_up_typed (root : SpecOptions) (chain : list SpecOptions) :
  well_typed root.(data) ->
  Forall (fun x => well_typed x.(data)) chain ->
  exists m, merge_up root chain = Ok m /\ well_typed m.(data).
Proof.
  intros Hroot Hchain. revert root Hroot.
  induction Hchain as [|next chain Hnext _ IH]; intros root Hroot; simpl.
  - exists root. split; [reflexivity | exact Hroot].
  - destruct (IH next Hnext) as [m [E Hm]]. rewrite E. simpl.
    rewrite (merge_typed root m Hroot Hm). eexists.
    split; [reflexivity|]. apply merged_well_typed; assumption.
Qed.

Lemma merge_up_merged (a b : SpecOptions) (chain : list SpecOptions) :
  well_typed a.(data) -> well_typed b.(data) ->
  Forall (fun x => well_typed x.(data)) chain ->
  merge_up (merged a b) chain = m <- merge_up b chain ;; merge a m.
Proof.
  intros Ha Hb Hchain. revert b Hb.
  induction Hchain as [|next chain Hnext Hchain _]; intros b Hb; simpl.
  - symmetry. apply merge_typed; assumption.
  - destruct (merge_up_typed next chain Hnext Hchain) as [m [E Hm]].
    rewrite E. simpl.
    rewrite (merge_typed b m Hb Hm). simpl.
    rewrite (merge_typed (merged a b) m (merged_well_typed a b Ha Hb) Hm).
    rewrite (merge_typed a (merged b m) Ha (merged_well_typed b m Hb Hm)).
    rewrite merged_assoc. reflexivity.
Qed.

Lemma merge_down_up (root : SpecOptions) (chain : list SpecOptions) :
  well_typed root.(data) ->
  Forall (fun x => well_typed x.(data)) chain ->
  merge_down root chain = merge_up root chain.
Proof.
  intros Hroot Hchain. revert root Hroot.
  induction Hchain as [|next chain Hnext Hchain IH]; intros root Hroot; simpl.
  - reflexivity.
  - rewrite (merge_typed root next Hroot Hnext). simpl.
    rewrite (IH _ (merged_well_typed root next Hroot Hnext)).
    apply merge_up_merged; assumption.
Qed.

(** C8: merge is associative: for records [a], [b] and [c],
    [(a.merge(b)).merge(c)] and [a.merge(b.merge(c))] return the same
    record; so a chain of records merged from the root down gives the
    record that the same chain gives when grouped from the leaf up. *)
Theorem merge_associative (a b c : SpecOptions) (chain : list SpecOptions) :
  well_typed a.(data) -> well_typed b.(data) -> well_typed c.(data) ->
  Forall (fun x => well_typed x.(data)) chain ->
  (exists ab bc abc,
      merge a b = Ok ab /\ merge b c = Ok bc /\
      merge ab c = Ok abc /\ merge a bc = Ok abc) /\
  (exists m, merge_down a chain = Ok m /\ merge_up a chain = Ok m).
Proof.
  intros Ha Hb Hc Hchain. split.
  - exists (merged a b), (merged b c), (merged (merged a b) c).
    split; [exact (merge_typed a b Ha Hb)|].
    split; [exact (merge_typed b c Hb Hc)|].
    split.
    + apply merge_typed; [apply merged_well_typed|]; assumption.
    + rewrite merged_assoc.
      apply merge_typed; [|apply merged_well_typed]; assumption.
  - destruct (merge_up_typed a chain Ha Hchain) as [m [E _]].
    exists m. rewrite (merge_down_up a chain Ha Hchain). split; exact E.
Qed.

Lemma merge_associative_witness :
  well_typed parent_options.(data) /\ well_typed busy_options.(data) /\
  well_typed child_options.(data) /\
  Forall (fun x => well_typed x.(data))
         [busy_options; five_digits; child_options] /\
  (exists ab bc abc,
      merge parent_options busy_options = Ok ab /\
      merge busy_options child_options = Ok bc /\
      merge ab child_options = Ok abc /\ merge parent_options bc = Ok abc) /\
  (exists m,
      merge_down parent_options [busy_options; five_digits; child_options] = Ok m /\
      merge_up parent_options [busy_options; five_digits; child_options] = Ok m).
Proof.
  assert (F : Forall (fun x => well_typed x.(data))
                     [busy_options; five_digits; child_options]).
  { repeat constructor. }
  split; [reflexivity|]. split; [reflexivity|]. split; [reflexivity|].
  split; [exact F|].
  apply (merge_associative parent_options busy_options child_options
           [busy_options; five_digits; child_options]);
    try reflexivity.
  exact F.
Defined.

(** ** YAML text *)

(** The key names come out of the replacement without their quotes. *)
Example replace_quoted_keys_keys :
  replace_quoted_keys 0 "':todo':
  - libsass
':precision': 5
"
  = ":todo:
  - libsass
:precision: 5
".
Proof. reflexivity. Qed.

(** The replacement does not know keys from entries: the same pattern inside
    an entry loses its quotes as well. *)
Example replace_quoted_keys_entry :
  replace_quoted_keys 0 ":todo:
  - x ':y':z
"
  = ":todo:
  - x :y:z
".
Proof. reflexivity. Qed.

(** Text without a single quote is left as it is. *)
Lemma replace_quoted_keys_quote_free (text : string) :
  quote_free text = true -> replace_quoted_keys 0 text = text.
Proof.
  induction text as [|c text IH]; simpl; [reflexivity|].
  intros H. apply andb_true_iff in H as [Hc Htext].
  assert (M : match_quoted_key (String c text) = None).
  { unfold match_quoted_key.
    destruct c as [[] [] [] [] [] [] [] []]; try reflexivity.
    discriminate Hc. }
  unfold match_quoted_key in M. rewrite M, (IH Htext). reflexivity.
Qed.

Section YamlProperties.

Variable yaml_load : string -> result (option object).
Variable yaml_dump : object -> result string.

(** An empty document decodes to the record without properties, which is
    empty. *)
Lemma fromYaml_empty_document (content : string) :
  yaml_load content = Ok None ->
  fromYaml yaml_load content = Ok emptyRecord /\
  isEmpty emptyRecord = Ok true.
Proof.
  intros E. unfold fromYaml. rewrite E. split; reflexivity.
Qed.

(** [toYaml] throws what [dump] throws and otherwise rewrites what [dump]
    wrote. *)
Lemma toYaml_dump (this : SpecOptions) :
  toYaml yaml_dump this
  = match yaml_dump this.(data) with
    | Ok text => Ok (replace_quoted_keys 0 text)
    | Throw e => Throw e
    end.
Proof. unfold toYaml. destruct (yaml_dump this.(data)); reflexivity. Qed.

End YamlProperties.

(** ** The scenario of a parent and a child directory *)

Example merge_parent_child :
  exists m,
    merge parent_options child_options = Ok m /\
    Obj.get m.(data) ":todo" = VArray ["libsass"] /\
    Obj.get m.(data) ":ignore_for" = VArray ["dart-sass"] /\
    getMode m "dart-sass" = Ok (Some Mode_ignore) /\
    getMode m "libsass" = Ok (Some Mode_todo) /\
    getMode m "other" = Ok None /\
    precision m = VNumber 5 /\
    precision parent_options = VNumber 10.
Proof. eexists. repeat split. Qed.

(* ================================================================== *)
(** * Further properties *)

(** ** isEmpty *)

Lemma isEmpty_every (this : SpecOptions) :
  isEmpty this = every entry_check this.(data).
Proof. reflexivity. Qed.

Lemma inert_iff (k : string) (v : value) :
  inert (k, v) = true <->
  (k = ":precision" -> v = VNumber 10) /\ (k <> ":precision" -> v = VArray []).
Proof.
  unfold inert. destruct (String.eqb_spec k ":precision") as [E | E].
  - split.
    + intros H. split; [intros _ | intros N; destruct (N E)].
      destruct v as [|n|items]; try discriminate H.
      simpl in H. apply Z.eqb_eq in H. congruence.
    + intros [H _]. rewrite (H E). reflexivity.
  - split.
    + intros H. split; [intros N; destruct (E N) | intros _].
      destruct v as [|n|[|x items]]; try discriminate H. reflexivity.
    + intros [_ H]. rewrite (H E). reflexivity.
Qed.

(** The three answers of the callback on one property. *)
Lemma entry_check_cases (k : string) (v : value) :
  (inert (k, v) = true /\ entry_check (k, v) = Ok true) \/
  (inert (k, v) = false /\ entry_check (k, v) = Ok false) \/
  (inert (k, v) = false /\ k <> ":precision" /\ v = VUndefined /\
   entry_check (k, v) = Throw TypeError).
Proof.
  unfold inert, entry_check.
  destruct (String.eqb_spec k ":precision") as [E | E].
  - destruct (strict_eq_number v 10); [left | right; left]; split; reflexivity.
  - destruct v as [|n|[|x items]].
    + right. right. repeat split. exact E.
    + right. left. split; reflexivity.
    + left. split; reflexivity.
    + right. left. split; reflexivity.
Qed.

Lemma every_entry_check_true (d : OptionsData) :
  every entry_check d = Ok true <-> forallb inert d = true.
Proof.
  induction d as [|[k v] d IH]; [simpl; tauto|]. cbn [every forallb].
  destruct (entry_check_cases k v) as [[I E] | [[I E] | [I [_ [_ E]]]]];
    rewrite E, I; simpl.
  - exact IH.
  - split; discriminate.
  - split; discriminate.
Qed.

Lemma isEmpty_inert_In (this : SpecOptions) :
  isEmpty this = Ok true <->
  forall kv, In kv this.(data) -> inert kv = true.
Proof.
  rewrite isEmpty_every, every_entry_check_true. apply forallb_forall.
Qed.

(** X1: on a record that follows the interface and has no property
    besides the four known ones, [isEmpty] answers [true] exactly when every
    property it has is inert: [:precision] holds 10, and a list option holds
    an empty array. *)
Theorem isEmpty_true_iff (this : SpecOptions) :
  well_typed this.(data) -> known_only this.(data) ->
  (isEmpty this = Ok true <->
   forall k v, In (k, v) this.(data) ->
               (k = ":precision" -> v = VNumber 10) /\
               (k <> ":precision" -> v = VArray [])).
Proof.
  intros _ _.
  rewrite isEmpty_every, every_entry_check_true, forallb_forall. split.
  - intros H k v Hin. apply inert_iff. exact (H (k, v) Hin).
  - intros H [k v] Hin. apply inert_iff. exact (H k v Hin).
Qed.

Lemma isEmpty_true_iff_witness :
  well_typed default_options.(data) /\ known_only default_options.(data) /\
  (isEmpty default_options = Ok true <->
   forall k v, In (k, v) default_options.(data) ->
               (k = ":precision" -> v = VNumber 10) /\
               (k <> ":precision" -> v = VArray [])).
Proof.
  split; [reflexivity|]. split; [reflexivity|].
  apply (isEmpty_true_iff default_options); reflexivity.
Defined.

(** X2: [isEmpty] throws exactly when some property other than
    [:precision] holds [undefined] and every property listed before it is
    inert; what it throws is a [TypeError]. *)
Theorem isEmpty_throws_iff (this : SpecOptions) (e : exn) :
  isEmpty this = Throw e <->
  e = TypeError /\
  exists pre k post,
    this.(data) = pre ++ (k, VUndefined) :: post /\
    k <> ":precision" /\
    isEmpty (new_SpecOptions pre) = Ok true.
Proof.
  rewrite isEmpty_every. destruct this as [d]. simpl.
  induction d as [|[k v] d IH]; cbn [every].
  - split; [discriminate|].
    intros [_ [pre [k [post [E _]]]]]. destruct pre; discriminate E.
  - destruct (entry_check_cases k v) as [[I E] | [[I E] | [I [Hk [Hv E]]]]];
      rewrite E; simpl.
    + rewrite IH. split.
      * intros [He [pre [k' [post [Ed [Hk' Hpre]]]]]]. split; [exact He|].
        exists ((k, v) :: pre), k', post. rewrite Ed.
        split; [reflexivity|]. split; [exact Hk'|].
        rewrite isEmpty_every in *. cbn [every data] in *. rewrite E. exact Hpre.
      * intros [He [pre [k' [post [Ed [Hk' Hpre]]]]]]. split; [exact He|].
        destruct pre as [|[k0 v0] pre]; simpl in Ed.
        -- injection Ed as -> -> _. apply inert_iff in I as [_ I].
           discriminate (I Hk').
        -- injection Ed as -> -> ->. exists pre, k', post.
           split; [reflexivity|]. split; [exact Hk'|].
           rewrite isEmpty_every in *. cbn [every data] in *.
           rewrite E in Hpre. exact Hpre.
    + split; [discriminate|].
      intros [_ [pre [k' [post [Ed [Hk' Hpre]]]]]].
      destruct pre as [|[k0 v0] pre]; simpl in Ed.
      * injection Ed as -> -> _. unfold entry_check in E.
        destruct (String.eqb_spec k' ":precision"); [contradiction|].
        discriminate E.
      * injection Ed as -> -> ->.
        rewrite isEmpty_every in Hpre. cbn [every data] in Hpre.
        rewrite E in Hpre. discriminate Hpre.
    + subst v. split.
      * intros H. injection H as <-. split; [reflexivity|].
        exists [], k, d. repeat split. exact Hk.
      * intros [-> _]. reflexivity.
Qed.

Lemma lookup_In (d : object) (k : string) (v : value) :
  Obj.lookup d k = Some v -> In (k, v) d.
Proof.
  induction d as [|[k' v'] d IH]; simpl; [discriminate|].
  destruct (String.eqb_spec k' k) as [-> | _].
  - intros H. injection H as ->. left. reflexivity.
  - intros H. right. exact (IH H).
Qed.

Lemma hasForImpl_no_entries (this : SpecOptions) (s : string) (option : OptionKey) :
  no_entries (Obj.get this.(data) (key option)) = true ->
  hasForImpl this s option = Ok false.
Proof.
  unfold hasForImpl.
  destruct (Obj.get this.(data) (key option)) as [|n|[|x items]];
    (discriminate || reflexivity).
Qed.

Lemma isEmpty_get (this : SpecOptions) (k : string) :
  isEmpty this = Ok true ->
  Obj.get this.(data) k = VUndefined \/
  (k = ":precision" /\ Obj.get this.(data) k = VNumber 10) \/
  (k <> ":precision" /\ Obj.get this.(data) k = VArray []).
Proof.
  intros H. unfold Obj.get.
  destruct (Obj.lookup this.(data) k) as [v|] eqn:L; [|left; reflexivity].
  right. apply lookup_In in L.
  destruct (proj1 (inert_iff k v) (proj1 (isEmpty_inert_In this) H (k, v) L))
    as [Hp Hl].
  destruct (String.eqb_spec k ":precision") as [E | E].
  - left. split; [exact E | exact (Hp E)].
  - right. split; [exact E | exact (Hl E)].
Qed.

(** X3: a record that follows the interface and whose [isEmpty] is [true]
    is semantically empty and answers every query as the record without
    properties does: no mode and no [:warning_todo] for any implementation,
    precision 10. *)
Theorem isEmpty_no_effect (this : SpecOptions) :
  well_typed this.(data) ->
  isEmpty this = Ok true ->
  semantically_empty this = true /\
  precision this = VNumber 10 /\
  forall s, getMode this s = Ok None /\ isWarningTodo this s = Ok false.
Proof.
  intros _ H.
  assert (L : forall option,
             no_entries (Obj.get this.(data) (key option)) = true).
  { intros option.
    destruct (isEmpty_get this (key option) H) as [E | [[E _] | [_ E]]].
    - rewrite E. reflexivity.
    - destruct option; discriminate E.
    - rewrite E. reflexivity. }
  assert (P : Obj.get this.(data) ":precision" = VUndefined \/
              Obj.get this.(data) ":precision" = VNumber 10).
  { destruct (isEmpty_get this ":precision" H) as [E | [[_ E] | [E _]]].
    - left. exact E.
    - right. exact E.
    - destruct (E eq_refl). }
  split; [|split].
  - unfold semantically_empty.
    pose proof (L K_ignore_for) as Li. pose proof (L K_todo) as Lt.
    pose proof (L K_warning_todo) as Lw. cbn [key] in Li, Lt, Lw.
    rewrite Li, Lt, Lw.
    destruct P as [E | E]; rewrite E; reflexivity.
  - unfold precision. destruct P as [E | E]; rewrite E; reflexivity.
  - intros s. unfold getMode, isWarningTodo.
    rewrite !hasForImpl_no_entries by apply L. split; reflexivity.
Qed.

Lemma isEmpty_no_effect_witness :
  well_typed default_options.(data) /\
  isEmpty default_options = Ok true /\
  semantically_empty default_options = true /\
  precision default_options = VNumber 10 /\
  forall s, getMode default_options s = Ok None /\
            isWarningTodo default_options s = Ok false.
Proof.
  split; [reflexivity|]. split; [reflexivity|].
  apply (isEmpty_no_effect default_options); reflexivity.
Defined.

(** ** merge, further *)

Lemma isEmpty_merged (a b : SpecOptions) :
  isEmpty (merged a b)
  = Ok (match entries_of a K_ignore_for ++ entries_of b K_ignore_for,
               entries_of a K_todo ++ entries_of b K_todo,
               entries_of a K_warning_todo ++ entries_of b K_warning_todo with
        | [], [], [] =>
            strict_eq_number
              (nullish (Obj.get b.(data) ":precision")
                       (Obj.get a.(data) ":precision")) 10
        | _, _, _ => false
        end).
Proof.
  unfold isEmpty, merged. cbn [data Obj.entries].
  destruct (entries_of a K_ignore_for ++ entries_of b K_ignore_for);
    [|reflexivity].
  destruct (entries_of a K_todo ++ entries_of b K_todo); [|reflexivity].
  destruct (entries_of a K_warning_todo ++ entries_of b K_warning_todo);
    [|reflexivity].
  simpl. destruct (strict_eq_number _ _); reflexivity.
Qed.

(** X4: [isEmpty] of a merge never throws; it is [true] exactly when
    neither record has an entry in any list option and the precision the
    merge settles on is 10.  When neither record has a precision the merge
    is not empty, not even the merge of two records without properties. *)
Theorem isEmpty_merge (a b : SpecOptions) :
  well_typed a.(data) -> well_typed b.(data) ->
  exists m empty,
    merge a b = Ok m /\
    isEmpty m = Ok empty /\
    (empty = true <->
     (forall option, entries_of a option = [] /\ entries_of b option = []) /\
     (Obj.get b.(data) ":precision" = VNumber 10 \/
      Obj.get b.(data) ":precision" = VUndefined /\
      Obj.get a.(data) ":precision" = VNumber 10)) /\
    (Obj.get a.(data) ":precision" = VUndefined ->
     Obj.get b.(data) ":precision" = VUndefined ->
     empty = false).
Proof.
  intros Ha Hb. eexists. eexists.
  split; [exact (merge_typed a b Ha Hb)|].
  split; [apply isEmpty_merged|]. split.
  - split.
    + intros H.
      destruct (entries_of a K_ignore_for ++ entries_of b K_ignore_for) eqn:Ei;
        [|discriminate H].
      destruct (entries_of a K_todo ++ entries_of b K_todo) eqn:Et;
        [|discriminate H].
      destruct (entries_of a K_warning_todo ++ entries_of b K_warning_todo)
        eqn:Ew; [|discriminate H].
      split.
      * intros option. apply app_eq_nil. destruct option; assumption.
      * destruct (well_typed_precision _ Hb) as [Pb | [n Pb]]; rewrite Pb in *.
        -- right. split; [reflexivity|].
           destruct (Obj.get a.(data) ":precision") as [|n|items];
             try discriminate H.
           simpl in H. apply Z.eqb_eq in H. congruence.
        -- left. simpl in H. apply Z.eqb_eq in H. congruence.
    + intros [E P].
      rewrite (proj1 (E K_ignore_for)), (proj2 (E K_ignore_for)).
      rewrite (proj1 (E K_todo)), (proj2 (E K_todo)).
      rewrite (proj1 (E K_warning_todo)), (proj2 (E K_warning_todo)).
      destruct P as [P | [P Q]]; rewrite P; [|rewrite Q]; reflexivity.
  - intros Pa Pb. rewrite Pa, Pb.
    destruct (_ ++ _); [|reflexivity].
    destruct (_ ++ _); [|reflexivity].
    destruct (_ ++ _); reflexivity.
Qed.

Lemma isEmpty_merge_witness :
  well_typed default_options.(data) /\ well_typed undefined_options.(data) /\
  exists m empty,
    merge default_options undefined_options = Ok m /\
    isEmpty m = Ok empty /\
    (empty = true <->
     (forall option, entries_of default_options option = [] /\
                     entries_of undefined_options option = []) /\
     (Obj.get undefined_options.(data) ":precision" = VNumber 10 \/
      Obj.get undefined_options.(data) ":precision" = VUndefined /\
      Obj.get default_options.(data) ":precision" = VNumber 10)) /\
    (Obj.get default_options.(data) ":precision" = VUndefined ->
     Obj.get undefined_options.(data) ":precision" = VUndefined ->
     empty = false).
Proof.
  split; [reflexivity|]. split; [reflexivity|].
  apply (isEmpty_merge default_options undefined_options); reflexivity.
Defined.

Lemma matches_app (s : string) (l1 l2 : list string) :
  matches s (l1 ++ l2) = matches s l1 || matches s l2.
Proof. apply existsb_app. Qed.

(** X5: a merge has the four known properties, in the order of the
    interface, and nothing else: a property of another name is in the
    result of [merge] for no pair of records, whether or not they have it.
    The result is typed. *)
Theorem merge_keeps_known_properties_only (a b : SpecOptions) :
  well_typed a.(data) -> well_typed b.(data) ->
  exists m,
    merge a b = Ok m /\
    map fst m.(data) = [":ignore_for"; ":todo"; ":warning_todo"; ":precision"] /\
    well_typed m.(data) /\
    (forall k, recognized k = false -> Obj.has m.(data) k = false).
Proof.
  intros Ha Hb. exists (merged a b).
  split; [exact (merge_typed a b Ha Hb)|].
  split; [reflexivity|].
  split; [exact (merged_well_typed a b Ha Hb)|].
  intros k Hk. unfold recognized in Hk.
  apply orb_false_iff in Hk as [Hk Hp].
  apply orb_false_iff in Hk as [Hk Hw].
  apply orb_false_iff in Hk as [Hi Ht].
  unfold Obj.has, merged. cbn [data Obj.lookup].
  rewrite (String.eqb_sym ":ignore_for"), Hi.
  rewrite (String.eqb_sym ":todo"), Ht.
  rewrite (String.eqb_sym ":warning_todo"), Hw.
  rewrite (String.eqb_sym ":precision"), Hp. reflexivity.
Qed.

Lemma merge_keeps_known_properties_only_witness :
  well_typed busy_options.(data) /\ well_typed busy_options.(data) /\
  exists m,
    merge busy_options busy_options = Ok m /\
    map fst m.(data) = [":ignore_for"; ":todo"; ":warning_todo"; ":precision"] /\
    well_typed m.(data) /\
    (forall k, recognized k = false -> Obj.has m.(data) k = false).
Proof.
  split; [reflexivity|]. split; [reflexivity|].
  apply (merge_keeps_known_properties_only busy_options busy_options);
    reflexivity.
Defined.

(** X6: what a merge matches is what either record matches: for every
    option, [hasForImpl] of the merge is the disjunction of the two, and
    [getMode] of the merge is ['ignore'] when either record ignores the
    implementation, else ['todo'] when either record defers it, else
    [undefined]; a child record cannot take back what its parent set. *)
Theorem merge_inherits_matches (a b : SpecOptions) (s : string) :
  well_typed a.(data) -> well_typed b.(data) ->
  exists m,
    merge a b = Ok m /\
    (forall option,
        exists ha hb,
          hasForImpl a s option = Ok ha /\
          hasForImpl b s option = Ok hb /\
          hasForImpl m s option = Ok (ha || hb)) /\
    (exists ma mb,
        getMode a s = Ok ma /\
        getMode b s = Ok mb /\
        getMode m s
        = Ok (match ma, mb with
              | Some Mode_ignore, _ | _, Some Mode_ignore => Some Mode_ignore
              | Some Mode_todo, _ | _, Some Mode_todo => Some Mode_todo
              | None, None => None
              end)).
Proof.
  intros Ha Hb. exists (merged a b).
  pose proof (merged_well_typed a b Ha Hb) as Hm.
  split; [exact (merge_typed a b Ha Hb)|]. split.
  - intros option. eexists. eexists.
    rewrite (hasForImpl_typed a s option Ha), (hasForImpl_typed b s option Hb).
    rewrite (hasForImpl_typed _ s option Hm), entries_of_merged, matches_app.
    repeat split.
  - eexists. eexists.
    rewrite (getMode_typed a s Ha), (getMode_typed b s Hb).
    rewrite (getMode_typed _ s Hm), !entries_of_merged, !matches_app.
    split; [reflexivity|]. split; [reflexivity|].
    destruct (matches s (entries_of a K_ignore_for)),
             (matches s (entries_of b K_ignore_for)),
             (matches s (entries_of a K_todo)),
             (matches s (entries_of b K_todo)); reflexivity.
Qed.

Lemma merge_inherits_matches_witness :
  well_typed parent_options.(data) /\ well_typed child_options.(data) /\
  exists m,
    merge parent_options child_options = Ok m /\
    (forall option,
        exists ha hb,
          hasForImpl parent_options "sass" option = Ok ha /\
          hasForImpl child_options "sass" option = Ok hb /\
          hasForImpl m "sass" option = Ok (ha || hb)) /\
    (exists ma mb,
        getMode parent_options "sass" = Ok ma /\
        getMode child_options "sass" = Ok mb /\
        getMode m "sass"
        = Ok (match ma, mb with
              | Some Mode_ignore, _ | _, Some Mode_ignore => Some Mode_ignore
              | Some Mode_todo, _ | _, Some Mode_todo => Some Mode_todo
              | None, None => None
              end)).
Proof.
  split; [reflexivity|]. split; [reflexivity|].
  apply (merge_inherits_matches parent_options child_options "sass");
    reflexivity.
Defined.

(** ** addImpl, further *)

Lemma append_nil_r (s : string) : (s ++ "")%string = s.
Proof. induction s as [|c s IH]; simpl; [|rewrite IH]; reflexivity. Qed.

Lemma append_assoc (s t u : string) :
  ((s ++ t) ++ u)%string = (s ++ t ++ u)%string.
Proof. induction s as [|c s IH]; simpl; [|rewrite IH]; reflexivity. Qed.

Lemma includes_refl (s : string) : includes s s = true.
Proof.
  apply includes_iff. exists "", "". simpl. rewrite append_nil_r. reflexivity.
Qed.

Lemma contains_trans (item s t : string) :
  contains item s -> contains s t -> contains item t.
Proof.
  intros [p [q ->]] [p' [q' ->]]. exists (p ++ p')%string, (q' ++ q)%string.
  rewrite !append_assoc. reflexivity.
Qed.

Lemma entries_of_set_same (this : SpecOptions) (option : OptionKey)
      (items : list string) :
  entries_of (new_SpecOptions (Obj.set this.(data) (key option) (VArray items)))
             option
  = items.
Proof. unfold entries_of. simpl. rewrite get_set_same. reflexivity. Qed.

Lemma In_set (d : object) (k : string) (v : value) : In (k, v) (Obj.set d k v).
Proof.
  induction d as [|[k' v'] d IH]; simpl; [left; reflexivity|].
  destruct (String.eqb_spec k' k) as [-> | _].
  - left. reflexivity.
  - right. exact IH.
Qed.

Lemma every_set_false (d : object) (k : string) (v : value) (b : bool) :
  every entry_check d = Ok b ->
  entry_check (k, v) = Ok false ->
  every entry_check (Obj.set d k v) = Ok false.
Proof.
  intros Hd Hkv. revert Hd.
  induction d as [|[k' v'] d IH]; cbn [every Obj.set].
  - intros _. rewrite Hkv. reflexivity.
  - destruct (String.eqb_spec k' k) as [-> | _]; cbn [every].
    + intros _. rewrite Hkv. reflexivity.
    + destruct (entry_check (k', v')) as [[|]|e]; simpl.
      * exact IH.
      * reflexivity.
      * discriminate.
Qed.

Lemma key_not_precision (option : OptionKey) : key option <> ":precision".
Proof. destruct option; discriminate. Qed.

(** X7: on a record, [addImpl(s, option)] returns a typed record whose
    option holds the former entries followed by [s], even when [s] is
    already there; afterwards the option matches [s], and every name it
    matched before it still matches. *)
Theorem addImpl_appends (this : SpecOptions) (s : string) (option : OptionKey) :
  well_typed this.(data) ->
  exists r,
    addImpl this s option = Ok r /\
    well_typed r.(data) /\
    Obj.get r.(data) (key option) = VArray (entries_of this option ++ [s]) /\
    hasForImpl r s option = Ok true /\
    (forall t, hasForImpl this t option = Ok true ->
               hasForImpl r t option = Ok true).
Proof.
  intros H.
  pose (r := new_SpecOptions
               (Obj.set this.(data) (key option)
                        (VArray (entries_of this option ++ [s])))).
  assert (Hr : well_typed r.(data)) by (apply well_typed_set; exact H).
  exists r. split; [exact (addImpl_typed this s option H)|].
  split; [exact Hr|]. split; [apply get_set_same|].
  split.
  - rewrite (hasForImpl_typed r s option Hr). unfold r.
    rewrite entries_of_set_same, matches_app.
    simpl. rewrite includes_refl, orb_true_r. reflexivity.
  - intros t. rewrite (hasForImpl_typed this t option H).
    rewrite (hasForImpl_typed r t option Hr). unfold r.
    rewrite entries_of_set_same, matches_app.
    intros E. injection E as ->. reflexivity.
Qed.

Lemma addImpl_appends_witness :
  well_typed busy_options.(data) /\
  exists r,
    addImpl busy_options "libsass" K_todo = Ok r /\
    well_typed r.(data) /\
    Obj.get r.(data) (key K_todo)
    = VArray (entries_of busy_options K_todo ++ ["libsass"]) /\
    hasForImpl r "libsass" K_todo = Ok true /\
    (forall t, hasForImpl busy_options t K_todo = Ok true ->
               hasForImpl r t K_todo = Ok true).
Proof.
  split; [reflexivity|].
  apply (addImpl_appends busy_options "libsass" K_todo). reflexivity.
Defined.

(** X8: a record that [addImpl] returns is never empty: [isEmpty] is not
    [true] on it, and it is [false] whenever [isEmpty] of the record it was
    made from does not throw. *)
Theorem addImpl_not_empty (this : SpecOptions) (s : string) (option : OptionKey) :
  well_typed this.(data) ->
  exists r,
    addImpl this s option = Ok r /\
    isEmpty r <> Ok true /\
    (forall b, isEmpty this = Ok b -> isEmpty r = Ok false).
Proof.
  intros H. eexists. split; [exact (addImpl_typed this s option H)|]. split.
  - intros E.
    destruct (proj1 (inert_iff _ _)
                    (proj1 (isEmpty_inert_In _) E
                           (key option, VArray (entries_of this option ++ [s]))
                           (In_set _ _ _)))
      as [_ N].
    specialize (N (key_not_precision option)).
    destruct (entries_of this option); discriminate N.
  - intros b E. rewrite isEmpty_every in *. cbn [data].
    apply (every_set_false _ _ _ b E).
    unfold entry_check.
    destruct (String.eqb_spec (key option) ":precision") as [K | _];
      [destruct (key_not_precision option K)|].
    simpl. rewrite length_app. simpl.
    destruct (Z.eqb_spec (Z.of_nat (List.length (entries_of this option) + 1)) 0);
      [lia | reflexivity].
Qed.

Lemma addImpl_not_empty_witness :
  well_typed default_options.(data) /\
  exists r,
    addImpl default_options "dart-sass" K_ignore_for = Ok r /\
    isEmpty r <> Ok true /\
    (forall b, isEmpty default_options = Ok b -> isEmpty r = Ok false).
Proof.
  split; [reflexivity|].
  apply (addImpl_not_empty default_options "dart-sass" K_ignore_for).
  reflexivity.
Defined.

(** ** removeImpl, further *)

Lemma matches_split (s : string) (items : list string) :
  matches s items = true ->
  exists pre x post,
    items = pre ++ x :: post /\ matches s pre = false /\ includes x s = true.
Proof.
  induction items as [|y items IH]; simpl; [discriminate|].
  destruct (includes y s) eqn:E; simpl.
  - intros _. exists [], y, items. repeat split. exact E.
  - intros H. destruct (IH H) as [pre [x [post [-> [Hpre Hx]]]]].
    exists (y :: pre), x, post. simpl. rewrite E. repeat split; assumption.
Qed.

Lemma set_set (d : object) (k : string) (v v' : value) :
  Obj.set (Obj.set d k v) k v' = Obj.set d k v'.
Proof.
  induction d as [|[k0 v0] d IH]; simpl.
  - rewrite String.eqb_refl. reflexivity.
  - destruct (String.eqb k0 k) eqn:E; simpl; rewrite E; [reflexivity|].
    rewrite IH. reflexivity.
Qed.

Lemma set_lookup_same (d : object) (k : string) (v : value) :
  Obj.lookup d k = Some v -> Obj.set d k v = d.
Proof.
  induction d as [|[k0 v0] d IH]; simpl; [discriminate|].
  destruct (String.eqb k0 k) eqn:E.
  - intros H. injection H as ->. reflexivity.
  - intros H. rewrite (IH H). reflexivity.
Qed.

Lemma delete_set (d : object) (k : string) (v : value) :
  Obj.delete (Obj.set d k v) k = Obj.delete d k.
Proof.
  induction d as [|[k0 v0] d IH]; simpl.
  - rewrite String.eqb_refl. reflexivity.
  - destruct (String.eqb k0 k) eqn:E; simpl; rewrite E; [reflexivity|].
    rewrite IH. reflexivity.
Qed.

Lemma delete_absent (d : object) (k : string) :
  Obj.lookup d k = None -> Obj.delete d k = d.
Proof.
  induction d as [|[k0 v0] d IH]; simpl; [reflexivity|].
  destruct (String.eqb k0 k) eqn:E; [discriminate|].
  intros H. rewrite (IH H). reflexivity.
Qed.

Lemma In_delete (d : object) (k0 k : string) (v : value) :
  In (k, v) (Obj.delete d k0) <-> In (k, v) d /\ k <> k0.
Proof.
  induction d as [|[k1 v1] d IH]; simpl; [tauto|].
  destruct (String.eqb_spec k1 k0) as [-> | N]; simpl; rewrite IH.
  - split; [tauto|]. intros [[E | H] Hk]; [|tauto].
    injection E as -> _. destruct (Hk eq_refl).
  - split; [|tauto]. intros [E | H]; [|tauto].
    split; [left; exact E|]. injection E as <- _. exact N.
Qed.

Lemma key_inj (o o' : OptionKey) : key o = key o' -> o = o'.
Proof. destruct o, o'; (reflexivity || discriminate). Qed.

Lemma entries_of_nonempty (this : SpecOptions) (option : OptionKey)
      (x : string) (items : list string) :
  entries_of this option = x :: items ->
  Obj.lookup this.(data) (key option) = Some (VArray (x :: items)).
Proof.
  unfold entries_of, Obj.get.
  destruct (Obj.lookup this.(data) (key option)) as [[|n|l]|];
    try discriminate.
  intros ->. reflexivity.
Qed.

(** The entries left by the two branches of [removeImpl] that change the
    record. *)
Lemma entries_of_removed (this : SpecOptions) (option : OptionKey)
      (rest : list string) :
  entries_of
    (match rest with
     | [] => new_SpecOptions (Obj.delete this.(data) (key option))
     | _ :: _ =>
         new_SpecOptions (Obj.set this.(data) (key option) (VArray rest))
     end) option
  = rest.
Proof.
  destruct rest as [|y rest]; unfold entries_of; cbn [data].
  - unfold Obj.get. rewrite lookup_delete_same. reflexivity.
  - rewrite get_set_same. reflexivity.
Qed.

Lemma well_typed_removed (this : SpecOptions) (option : OptionKey)
      (rest : list string) :
  well_typed this.(data) ->
  well_typed
    (match rest with
     | [] => new_SpecOptions (Obj.delete this.(data) (key option))
     | _ :: _ =>
         new_SpecOptions (Obj.set this.(data) (key option) (VArray rest))
     end).(data).
Proof.
  intros H. destruct rest; cbn [data].
  - apply well_typed_delete. exact H.
  - apply well_typed_set. exact H.
Qed.

Lemma removeImpl_no_match (this : SpecOptions) (s : string) (option : OptionKey) :
  well_typed this.(data) ->
  matches s (entries_of this option) = false ->
  removeImpl this s option = Ok this.
Proof.
  intros H. unfold removeImpl, entries_of.
  destruct (well_typed_list _ option H) as [E | [items E]]; rewrite E; simpl.
  - reflexivity.
  - intros N. apply findIndex_none in N. unfold matches in N. rewrite N.
    reflexivity.
Qed.

(** X9: adding an implementation that no entry of the option contains and
    removing it again gives back the entries of every option and the other
    properties; the record itself comes back when the option had entries or
    was not a property at all, and an option that was an empty array or
    [undefined] is no property any more. *)
Theorem removeImpl_addImpl_restores (this : SpecOptions) (s : string)
        (option : OptionKey) :
  well_typed this.(data) ->
  (forall item, In item (entries_of this option) -> ~ contains item s) ->
  exists added r,
    addImpl this s option = Ok added /\
    removeImpl added s option = Ok r /\
    (forall o, entries_of r o = entries_of this o) /\
    Obj.others r.(data) (key option) = Obj.others this.(data) (key option) /\
    (entries_of this option <> [] -> r = this) /\
    (Obj.has this.(data) (key option) = false -> r = this) /\
    (entries_of this option = [] -> Obj.has r.(data) (key option) = false).
Proof.
  intros H Hnone. apply matches_none in Hnone.
  destruct this as [d]. cbn [data] in *.
  pose (added := new_SpecOptions
                   (Obj.set d (key option)
                      (VArray (entries_of (new_SpecOptions d) option ++ [s])))).
  assert (R := removeImpl_first added s option
                 (entries_of (new_SpecOptions d) option) [] s
                 (get_set_same _ _ _) Hnone (includes_refl s)).
  exists added. eexists.
  split; [exact (addImpl_typed (new_SpecOptions d) s option H)|].
  split; [exact R|]. clear R. rewrite app_nil_r. unfold added. cbn [data].
  destruct (entries_of (new_SpecOptions d) option) as [|x items] eqn:E.
  - rewrite delete_set. cbn [data]. repeat split.
    + intros o. unfold entries_of at 1. cbn [data]. unfold Obj.get.
      destruct (String.eqb_spec (key o) (key option)) as [K | K].
      * apply key_inj in K. subst o. rewrite lookup_delete_same, E. reflexivity.
      * rewrite (lookup_delete_other _ _ _ K). reflexivity.
    + apply others_delete.
    + intros N. destruct (N eq_refl).
    + unfold Obj.has.
      destruct (Obj.lookup d (key option)) eqn:L; [discriminate|].
      intros _. rewrite (delete_absent _ _ L). reflexivity.
    + intros _. unfold Obj.has. rewrite lookup_delete_same. reflexivity.
  - apply entries_of_nonempty in E. cbn [data] in E.
    rewrite set_set, (set_lookup_same _ _ _ E). repeat split.
    discriminate.
Qed.

Lemma removeImpl_addImpl_restores_witness :
  well_typed busy_options.(data) /\
  (forall item, In item (entries_of busy_options K_warning_todo) ->
                ~ contains item "dart-sass") /\
  exists added r,
    addImpl busy_options "dart-sass" K_warning_todo = Ok added /\
    removeImpl added "dart-sass" K_warning_todo = Ok r /\
    (forall o, entries_of r o = entries_of busy_options o) /\
    Obj.others r.(data) (key K_warning_todo)
    = Obj.others busy_options.(data) (key K_warning_todo) /\
    (entries_of busy_options K_warning_todo <> [] -> r = busy_options) /\
    (Obj.has busy_options.(data) (key K_warning_todo) = false ->
     r = busy_options) /\
    (entries_of busy_options K_warning_todo = [] ->
     Obj.has r.(data) (key K_warning_todo) = false).
Proof.
  assert (N : forall item, In item (entries_of busy_options K_warning_todo) ->
                           ~ contains item "dart-sass").
  { intros item [<- | []]. apply not_contains. reflexivity. }
  split; [reflexivity|]. split; [exact N|].
  apply (removeImpl_addImpl_restores busy_options "dart-sass" K_warning_todo);
    [reflexivity | exact N].
Defined.

(** X10: when an entry of the option already contains [s], adding [s] and
    removing it again does not undo the addition: the first of the older
    matching entries goes, and the entry just added stays at the end, so the
    option still matches [s]. *)
Theorem removeImpl_addImpl_earlier_match (this : SpecOptions) (s : string)
        (option : OptionKey) (pre post : list string) (x : string) :
  Obj.get this.(data) (key option) = VArray (pre ++ x :: post) ->
  (forall item, In item pre -> ~ contains item s) ->
  contains x s ->
  exists added r,
    addImpl this s option = Ok added /\
    removeImpl added s option = Ok r /\
    Obj.get r.(data) (key option) = VArray (pre ++ post ++ [s]) /\
    hasForImpl r s option = Ok true.
Proof.
  intros E Hpre Hx. apply matches_none in Hpre. apply includes_iff in Hx.
  pose (added := new_SpecOptions
                   (Obj.set this.(data) (key option)
                      (VArray ((pre ++ x :: post) ++ [s])))).
  assert (G : Obj.get added.(data) (key option)
              = VArray (pre ++ x :: (post ++ [s]))).
  { unfold added. cbn [data]. rewrite get_set_same, <- app_assoc. reflexivity. }
  assert (R := removeImpl_first added s option pre (post ++ [s]) x G Hpre Hx).
  exists added. eexists. split.
  { unfold addImpl. rewrite E. reflexivity. }
  split; [exact R|]. clear R.
  destruct (pre ++ post ++ [s]) as [|y rest] eqn:L.
  { destruct pre; [destruct post|]; discriminate L. }
  cbn [data]. split; [apply get_set_same|].
  unfold hasForImpl. cbn [data]. rewrite get_set_same. simpl array_receiver.
  cbn [bind]. f_equal. rewrite <- L. unfold some.
  rewrite !existsb_app. simpl. rewrite includes_refl, !orb_true_r. reflexivity.
Qed.

Lemma removeImpl_addImpl_earlier_match_witness :
  Obj.get busy_options.(data) (key K_todo)
  = VArray ([] ++ "dart-sass: unsupported" :: ["libsass"; "dart-sass"]) /\
  (forall item, In item [] -> ~ contains item "dart-sass") /\
  contains "dart-sass: unsupported" "dart-sass" /\
  exists added r,
    addImpl busy_options "dart-sass" K_todo = Ok added /\
    removeImpl added "dart-sass" K_todo = Ok r /\
    Obj.get r.(data) (key K_todo)
    = VArray ([] ++ ["libsass"; "dart-sass"] ++ ["dart-sass"]) /\
    hasForImpl r "dart-sass" K_todo = Ok true.
Proof.
  assert (C : contains "dart-sass: unsupported" "dart-sass").
  { exists "", ": unsupported". reflexivity. }
  split; [reflexivity|]. split; [intros item []|]. split; [exact C|].
  apply (removeImpl_addImpl_earlier_match busy_options "dart-sass" K_todo
           [] ["libsass"; "dart-sass"] "dart-sass: unsupported");
    [reflexivity | intros item [] | exact C].
Defined.

(** X11: on a record, [removeImpl(s, option)] takes out one entry when the
    option matches [s] and returns the record itself when it does not; the
    result matches no name that the record did not match, but it may still
    match [s]. *)
Theorem removeImpl_removes_one (this : SpecOptions) (s : string)
        (option : OptionKey) :
  well_typed this.(data) ->
  exists r found,
    removeImpl this s option = Ok r /\
    hasForImpl this s option = Ok found /\
    (List.length (entries_of r option) + (if found then 1 else 0)
     = List.length (entries_of this option))%nat /\
    (found = false -> r = this) /\
    (forall t, hasForImpl r t option = Ok true ->
               hasForImpl this t option = Ok true).
Proof.
  intros H. rewrite (hasForImpl_typed this s option H).
  destruct (matches s (entries_of this option)) eqn:M.
  - destruct (matches_split _ _ M) as [pre [x [post [E [Hpre Hx]]]]].
    assert (G : Obj.get this.(data) (key option) = VArray (pre ++ x :: post)).
    { destruct pre as [|y pre]; simpl in E;
        apply entries_of_nonempty in E; unfold Obj.get; rewrite E; reflexivity. }
    eexists. exists true.
    split; [exact (removeImpl_first this s option pre post x G Hpre Hx)|].
    split; [reflexivity|].
    rewrite entries_of_removed, E, !length_app. simpl.
    split; [lia|]. split; [discriminate|].
    intros t. rewrite (hasForImpl_typed this t option H), E.
    rewrite hasForImpl_typed by (apply well_typed_removed; exact H).
    rewrite entries_of_removed, !matches_app. simpl.
    intros T. injection T as T. f_equal.
    apply orb_true_iff in T as [T | T]; rewrite T;
      rewrite ?orb_true_r; reflexivity.
  - exists this, false.
    split; [exact (removeImpl_no_match this s option H M)|].
    split; [reflexivity|]. split; [lia|]. split; [reflexivity|].
    intros t T. exact T.
Qed.

Lemma removeImpl_removes_one_witness :
  well_typed busy_options.(data) /\
  exists r found,
    removeImpl busy_options "sass" K_todo = Ok r /\
    hasForImpl busy_options "sass" K_todo = Ok found /\
    (List.length (entries_of r K_todo) + (if found then 1 else 0)
     = List.length (entries_of busy_options K_todo))%nat /\
    (found = false -> r = busy_options) /\
    (forall t, hasForImpl r t K_todo = Ok true ->
               hasForImpl busy_options t K_todo = Ok true).
Proof.
  split; [reflexivity|].
  apply (removeImpl_removes_one busy_options "sass" K_todo). reflexivity.
Defined.

(** X12: on a record that follows the interface and has no property
    besides the four known ones, when the option has a single entry and it
    contains [s], [removeImpl(s, option)] returns a record that is empty
    exactly when every other property of the record is inert: removing the
    last entry of the only option in use makes the record empty. *)
Theorem removeImpl_last_entry_isEmpty (this : SpecOptions) (s : string)
        (option : OptionKey) (x : string) :
  well_typed this.(data) -> known_only this.(data) ->
  Obj.get this.(data) (key option) = VArray [x] ->
  contains x s ->
  exists r,
    removeImpl this s option = Ok r /\
    (isEmpty r = Ok true <->
     forall k v, In (k, v) this.(data) -> k <> key option ->
                 (k = ":precision" -> v = VNumber 10) /\
                 (k <> ":precision" -> v = VArray [])).
Proof.
  intros _ _ E Hx. apply includes_iff in Hx. eexists.
  split; [exact (removeImpl_first this s option [] [] x E eq_refl Hx)|].
  cbn [app]. rewrite isEmpty_inert_In. cbn [data]. split.
  - intros H k v Hin Hk. apply inert_iff. apply (H (k, v)).
    apply In_delete. split; assumption.
  - intros H [k v] Hin. apply In_delete in Hin as [Hin Hk].
    apply inert_iff. exact (H k v Hin Hk).
Qed.

Lemma removeImpl_last_entry_isEmpty_witness :
  well_typed nearly_empty_options.(data) /\
  known_only nearly_empty_options.(data) /\
  Obj.get nearly_empty_options.(data) (key K_ignore_for) = VArray ["dart-sass"] /\
  contains "dart-sass" "sass" /\
  exists r,
    removeImpl nearly_empty_options "sass" K_ignore_for = Ok r /\
    (isEmpty r = Ok true <->
     forall k v, In (k, v) nearly_empty_options.(data) ->
                 k <> key K_ignore_for ->
                 (k = ":precision" -> v = VNumber 10) /\
                 (k <> ":precision" -> v = VArray [])).
Proof.
  assert (C : contains "dart-sass" "sass").
  { exists "dart-", "". reflexivity. }
  split; [reflexivity|]. split; [reflexivity|].
  split; [reflexivity|]. split; [exact C|].
  apply (removeImpl_last_entry_isEmpty nearly_empty_options "sass" K_ignore_for
           "dart-sass"); [reflexivity | reflexivity | reflexivity | exact C].
Defined.

(** ** Names and entries *)

Lemma getMode_ignore_inv (this : SpecOptions) (s : string) :
  getMode this s = Ok (Some Mode_ignore) <->
  hasForImpl this s K_ignore_for = Ok true.
Proof.
  unfold getMode.
  destruct (hasForImpl this s K_ignore_for) as [[|]|e]; simpl.
  - tauto.
  - destruct (hasForImpl this s K_todo) as [[|]|e]; simpl;
      split; discriminate.
  - split; discriminate.
Qed.

(** X13: on a record that follows the interface, matching is by
    containment, so a name matches wherever a name that contains it matches:
    if [s] contains [t] and the option matches [s], it matches [t], and an
    implementation [t] is ignored wherever [s] is. *)
Theorem hasForImpl_contained_name (this : SpecOptions) (s t : string)
        (option : OptionKey) :
  well_typed this.(data) ->
  contains s t ->
  (hasForImpl this s option = Ok true -> hasForImpl this t option = Ok true) /\
  (getMode this s = Ok (Some Mode_ignore) ->
   getMode this t = Ok (Some Mode_ignore)).
Proof.
  intros _ C.
  assert (G : forall o, hasForImpl this s o = Ok true ->
                        hasForImpl this t o = Ok true).
  { intros o. unfold hasForImpl.
    destruct (Obj.get this.(data) (key o)) as [|n|items]; simpl;
      try discriminate.
    intros H. injection H as H. f_equal.
    apply matches_iff in H as [item [Hin Hc]]. apply matches_iff.
    exists item. split; [exact Hin|]. exact (contains_trans _ _ _ Hc C). }
  split; [apply G|].
  rewrite !getMode_ignore_inv. apply G.
Qed.

Lemma hasForImpl_contained_name_witness :
  well_typed busy_options.(data) /\
  contains "dart-sass" "sass" /\
  (hasForImpl busy_options "dart-sass" K_todo = Ok true ->
   hasForImpl busy_options "sass" K_todo = Ok true) /\
  (getMode busy_options "dart-sass" = Ok (Some Mode_ignore) ->
   getMode busy_options "sass" = Ok (Some Mode_ignore)).
Proof.
  assert (C : contains "dart-sass" "sass").
  { exists "dart-", "". reflexivity. }
  split; [reflexivity|]. split; [exact C|].
  apply (hasForImpl_contained_name busy_options "dart-sass" "sass" K_todo);
    [reflexivity | exact C].
Defined.

(** ** Data that does not follow the interface *)

(** X14: nothing validates what is decoded, and a list option that holds
    an integer [n] makes the operations on it throw a [TypeError]:
    [hasForImpl] and [addImpl] on that option, and [merge] with the record
    on either side; [removeImpl] returns the record itself when [n] is 0 and
    throws for any other integer. *)
Theorem number_option_throws (this other : SpecOptions) (s : string)
        (option : OptionKey) (n : Z) :
  Obj.get this.(data) (key option) = VNumber n ->
  hasForImpl this s option = Throw TypeError /\
  addImpl this s option = Throw TypeError /\
  removeImpl this s option = (if n =? 0 then Ok this else Throw TypeError) /\
  merge this other = Throw TypeError /\
  merge other this = Throw TypeError.
Proof.
  intros H. split; [|split; [|split; [|split]]].
  - unfold hasForImpl. rewrite H. reflexivity.
  - unfold addImpl. rewrite H. reflexivity.
  - unfold removeImpl. rewrite H. simpl. destruct (n =? 0); reflexivity.
  - unfold merge. destruct option; rewrite H;
      repeat match goal with
             | |- context [Obj.get ?d ?k] => destruct (Obj.get d k)
             end; reflexivity.
  - unfold merge. destruct option; rewrite H;
      repeat match goal with
             | |- context [Obj.get ?d ?k] => destruct (Obj.get d k)
             end; reflexivity.
Qed.

Lemma number_option_throws_witness :
  Obj.get untyped_options.(data) (key K_todo) = VNumber 3 /\
  hasForImpl untyped_options "libsass" K_todo = Throw TypeError /\
  addImpl untyped_options "libsass" K_todo = Throw TypeError /\
  removeImpl untyped_options "libsass" K_todo
  = (if 3 =? 0 then Ok untyped_options else Throw TypeError) /\
  merge untyped_options parent_options = Throw TypeError /\
  merge parent_options untyped_options = Throw TypeError.
Proof.
  split; [reflexivity|].
  apply (number_option_throws untyped_options parent_options "libsass" K_todo 3).
  reflexivity.
Defined.

(** ** toYaml and the quoted keys *)

Lemma length_append (s t : string) :
  String.length (s ++ t) = (String.length s + String.length t)%nat.
Proof. induction s as [|c s IH]; simpl; [|rewrite IH]; reflexivity. Qed.

Lemma span_unquoted_eq (s run rest : string) :
  span_unquoted s = (run, rest) -> s = (run ++ rest)%string.
Proof.
  revert run rest. induction s as [|c s IH]; simpl; intros run rest H.
  - injection H as <- <-. reflexivity.
  - destruct (Ascii.eqb c "'"%char).
    + injection H as <- <-. reflexivity.
    + destruct (span_unquoted s) as [run' rest'].
      injection H as <- <-. simpl. rewrite (IH run' rest' eq_refl). reflexivity.
Qed.

Lemma span_unquoted_run (body rest : string) :
  quote_free body = true ->
  span_unquoted (body ++ String "'"%char rest) = (body, String "'"%char rest).
Proof.
  induction body as [|c body IH]; simpl; [reflexivity|].
  intros H. apply andb_true_iff in H as [Hc Hbody].
  apply negb_true_iff in Hc. rewrite Hc, (IH Hbody). reflexivity.
Qed.

Lemma match_quoted_key_inv (text group : string) :
  match_quoted_key text = Some group ->
  exists rest,
    text = String "'"%char (group ++ String "'"%char (String ":"%char rest)).
Proof.
  unfold match_quoted_key.
  destruct text as [|c0 text]; [discriminate|].
  destruct (Ascii.eqb_spec c0 "'"%char) as [-> | N].
  2:{ destruct c0 as [[] [] [] [] [] [] [] []]; try discriminate.
      destruct (N eq_refl). }
  destruct text as [|c1 text]; [discriminate|].
  destruct (Ascii.eqb_spec c1 ":"%char) as [-> | N].
  2:{ destruct c1 as [[] [] [] [] [] [] [] []]; try discriminate.
      destruct (N eq_refl). }
  destruct (span_unquoted text) as [run rest] eqn:S.
  apply span_unquoted_eq in S. subst text.
  destruct run as [|c run]; [discriminate|].
  destruct rest as [|c2 rest]; [discriminate|].
  destruct (Ascii.eqb_spec c2 "'"%char) as [-> | N].
  2:{ destruct c2 as [[] [] [] [] [] [] [] []]; try discriminate.
      destruct (N eq_refl). }
  destruct rest as [|c3 rest]; [discriminate|].
  destruct (Ascii.eqb_spec c3 ":"%char) as [-> | N].
  2:{ destruct c3 as [[] [] [] [] [] [] [] []]; try discriminate.
      destruct (N eq_refl). }
  intros H. injection H as <-. exists rest. reflexivity.
Qed.

Lemma replace_quoted_keys_skip (m rest : string) :
  replace_quoted_keys (String.length m) (m ++ rest)
  = replace_quoted_keys 0 rest.
Proof.
  induction m as [|c m IH]; simpl; [reflexivity|]. exact IH.
Qed.

Lemma replace_quoted_keys_length (text : string) (skip : nat) :
  (skip <= String.length text)%nat ->
  (String.length (replace_quoted_keys skip text) + skip
   <= String.length text)%nat.
Proof.
  remember (String.length text) as n eqn:Hn.
  revert text skip Hn.
  induction n as [n IH] using lt_wf_ind. intros text skip Hn Hskip.
  destruct text as [|c text]; [simpl in *; lia|].
  simpl in Hn. cbn [replace_quoted_keys].
  destruct skip as [|k].
  - destruct (match_quoted_key (String c text)) as [group|] eqn:M.
    + destruct (match_quoted_key_inv _ _ M) as [rest E].
      injection E as -> ->.
      rewrite !length_append. cbn [String.length].
      assert (L : String.length
                    (group ++ String "'"%char (String ":"%char rest))
                  = (String.length group + 2 + String.length rest)%nat).
      { rewrite length_append. simpl. lia. }
      rewrite L in Hn.
      pose proof (IH (String.length group + 2 + String.length rest)%nat
                     ltac:(lia)
                     (group ++ String "'"%char (String ":"%char rest))%string
                     (String.length group + 2)%nat
                     (eq_sym L) ltac:(lia)) as B.
      lia.
    + cbn [String.length].
      pose proof (IH (String.length text) ltac:(lia) text 0%nat eq_refl
                     ltac:(lia)) as B.
      lia.
  - pose proof (IH (String.length text) ltac:(lia) text k eq_refl
                   ltac:(lia)) as B.
    lia.
Qed.

Lemma replace_quoted_keys_match (c : ascii) (text group : string) :
  match_quoted_key (String c text) = Some group ->
  replace_quoted_keys 0 (String c text)
  = (group ++ ":"
       ++ replace_quoted_keys (String.length group + 2) text)%string.
Proof.
  intros M.
  change (replace_quoted_keys 0 (String c text))
    with (match match_quoted_key (String c text) with
          | Some group =>
              (group ++ ":"
                 ++ replace_quoted_keys (String.length group + 2) text)%string
          | None => String c (replace_quoted_keys 0 text)
          end).
  rewrite M. reflexivity.
Qed.

Lemma match_quoted_key_run (body rest : string) :
  quote_free body = true -> body <> EmptyString ->
  match_quoted_key
    (String "'"%char
       (String ":"%char (body ++ String "'"%char (String ":"%char rest))))
  = Some (String ":"%char body).
Proof.
  intros Hq Hne. unfold match_quoted_key.
  rewrite (span_unquoted_run body (String ":"%char rest) Hq).
  destruct body as [|c body]; [destruct (Hne eq_refl) | reflexivity].
Qed.

(** X15: the replacement of [toYaml] takes the quotes off a quoted key:
    a quote, a colon, one or more characters other than the quote, a quote
    and a colon become the same without the two quotes, and the replacement
    goes on after them. *)
Theorem replace_quoted_keys_unquotes (body rest : string) :
  quote_free body = true -> body <> EmptyString ->
  replace_quoted_keys 0
    (String "'"%char
       (String ":"%char (body ++ String "'"%char (String ":"%char rest))))
  = String ":"%char (body ++ String ":"%char (replace_quoted_keys 0 rest)).
Proof.
  intros Hq Hne.
  rewrite (replace_quoted_keys_match _ _ _ (match_quoted_key_run body rest Hq Hne)).
  set (m := (String ":"%char body
               ++ String "'"%char (String ":"%char EmptyString))%string).
  replace (String ":"%char (body ++ String "'"%char (String ":"%char rest)))
    with (m ++ rest)%string
    by (unfold m; simpl; rewrite append_assoc; reflexivity).
  replace (String.length (String ":"%char body) + 2)%nat
    with (String.length m)
    by (unfold m; rewrite length_append; reflexivity).
  rewrite replace_quoted_keys_skip. reflexivity.
Qed.

Lemma replace_quoted_keys_unquotes_witness :
  quote_free "todo" = true /\ "todo" <> EmptyString /\
  replace_quoted_keys 0
    (String "'"%char
       (String ":"%char ("todo" ++ String "'"%char (String ":"%char " []"))))
  = String ":"%char ("todo" ++ String ":"%char (replace_quoted_keys 0 " []")).
Proof.
  split; [reflexivity|]. split; [discriminate|].
  apply (replace_quoted_keys_unquotes "todo" " []"); [reflexivity | discriminate].
Defined.

Section ToYaml.

Variable yaml_dump : object -> result string.

(** X16: [toYaml] throws what the encoder throws; otherwise its text is
    never longer than what the encoder wrote, and it is that text itself
    when the encoder wrote no single quote. *)
Theorem toYaml_rewrites_dump (this : SpecOptions) :
  match yaml_dump this.(data) with
  | Throw e => toYaml yaml_dump this = Throw e
  | Ok text =>
      exists out,
        toYaml yaml_dump this = Ok out /\
        (String.length out <= String.length text)%nat /\
        (quote_free text = true -> out = text)
  end.
Proof.
  unfold toYaml. destruct (yaml_dump this.(data)) as [text|e]; [|reflexivity].
  eexists. split; [reflexivity|]. split.
  - pose proof (replace_quoted_keys_length text 0 ltac:(lia)). lia.
  - apply replace_quoted_keys_quote_free.
Qed.

End ToYaml.

(** ** Inheriting along a chain of directories *)

Lemma merge_down_typed (root : SpecOptions) (chain : list SpecOptions) :
  well_typed root.(data) ->
  Forall (fun x => well_typed x.(data)) chain ->
  exists m,
    merge_down root chain = Ok m /\
    well_typed m.(data) /\
    (forall option,
        entries_of m option
        = entries_of root option
          ++ concat (map (fun x => entries_of x option) chain)) /\
    precision m
    = fold_left (fun p x => nullish (Obj.get x.(data) ":precision") p)
                chain (precision root).
Proof.
  intros Hroot Hchain. revert root Hroot.
  induction Hchain as [|next chain Hnext _ IH]; intros root Hroot;
    cbn [merge_down map concat fold_left].
  - exists root. split; [reflexivity|]. split; [exact Hroot|].
    split; [|reflexivity]. intros option. rewrite app_nil_r. reflexivity.
  - rewrite (merge_typed root next Hroot Hnext). cbn [bind].
    destruct (IH _ (merged_well_typed root next Hroot Hnext))
      as [m [E [Hm [L P]]]].
    exists m. split; [exact E|]. split; [exact Hm|]. split.
    + intros option. rewrite L, entries_of_merged, app_assoc. reflexivity.
    + rewrite P, precision_merged. reflexivity.
Qed.

(** X17: merging a chain of records from the root down never throws on
    typed records; each list option of the result holds the entries of the
    root followed by those of every record of the chain, in order, and the
    precision is the one of the deepest record that has one, 10 when none
    has. *)
Theorem merge_down_collects (root : SpecOptions) (chain : list SpecOptions) :
  well_typed root.(data) ->
  Forall (fun x => well_typed x.(data)) chain ->
  exists m,
    merge_down root chain = Ok m /\
    (forall option,
        entries_of m option
        = entries_of root option
          ++ concat (map (fun x => entries_of x option) chain)) /\
    precision m
    = fold_left (fun p x => nullish (Obj.get x.(data) ":precision") p)
                chain (precision root) /\
    ((forall x, In x (root :: chain) ->
                Obj.get x.(data) ":precision" = VUndefined) ->
     precision m = VNumber 10).
Proof.
  intros Hroot Hchain.
  destruct (merge_down_typed root chain Hroot Hchain) as [m [E [_ [L P]]]].
  exists m. split; [exact E|]. split; [exact L|]. split; [exact P|].
  intros U. rewrite P.
  assert (R : precision root = VNumber 10).
  { unfold precision. rewrite (U root (or_introl eq_refl)). reflexivity. }
  rewrite R.
  assert (C : forall x, In x chain -> Obj.get x.(data) ":precision" = VUndefined).
  { intros x Hin. apply U. right. exact Hin. }
  clear - C. induction chain as [|x chain IH]; simpl; [reflexivity|].
  rewrite (C x (or_introl eq_refl)). simpl. apply IH.
  intros y Hin. apply C. right. exact Hin.
Qed.

Lemma merge_down_collects_witness :
  well_typed parent_options.(data) /\
  Forall (fun x => well_typed x.(data)) [child_options; busy_options] /\
  exists m,
    merge_down parent_options [child_options; busy_options] = Ok m /\
    (forall option,
        entries_of m option
        = entries_of parent_options option
          ++ concat (map (fun x => entries_of x option)
                         [child_options; busy_options])) /\
    precision m
    = fold_left (fun p x => nullish (Obj.get x.(data) ":precision") p)
                [child_options; busy_options] (precision parent_options) /\
    ((forall x, In x (parent_options :: [child_options; busy_options]) ->
                Obj.get x.(data) ":precision" = VUndefined) ->
     precision m = VNumber 10).
Proof.
  assert (F : Forall (fun x => well_typed x.(data))
                     [child_options; busy_options]).
  { repeat constructor. }
  split; [reflexivity|]. split; [exact F|].
  apply (merge_down_collects parent_options [child_options; busy_options]);
    [reflexivity | exact F].
Defined.

(** ** fromYaml *)

Section FromYaml.

Variable yaml_load : string -> result (option object).

(** X18: a document that decodes to nothing gives a record that is empty
    and that is neutral for [merge] on either side: the two merges with a
    record [r] return the same record, which answers the three queries as
    [r] does. *)
Theorem fromYaml_empty_document_neutral (content : string) (r : SpecOptions) :
  yaml_load content = Ok None ->
  well_typed r.(data) ->
  exists e m,
    fromYaml yaml_load content = Ok e /\
    isEmpty e = Ok true /\
    merge r e = Ok m /\
    merge e r = Ok m /\
    precision m = precision r /\
    forall s, getMode m s = getMode r s /\
              isWarningTodo m s = isWarningTodo r s.
Proof.
  intros L Hr.
  assert (He : well_typed emptyRecord.(data)) by reflexivity.
  exists emptyRecord, (merged r emptyRecord).
  split; [unfold fromYaml; rewrite L; reflexivity|].
  split; [reflexivity|].
  split; [exact (merge_typed r emptyRecord Hr He)|].
  split.
  - rewrite (merged_nothing_right r emptyRecord); [|reflexivity|reflexivity].
    exact (merge_typed emptyRecord r He Hr).
  - destruct (merged_semantically_empty r emptyRecord Hr He eq_refl)
      as [_ [Q [_ P]]].
    split; [exact P|].
    intros s. destruct (Q s) as [Q1 [_ [Q3 _]]]. split; assumption.
Qed.

End FromYaml.

Lemma fromYaml_empty_document_neutral_witness :
  (fun _ : string => Ok (@None object)) "" = Ok None /\
  well_typed busy_options.(data) /\
  exists e m,
    fromYaml (fun _ => Ok None) "" = Ok e /\
    isEmpty e = Ok true /\
    merge busy_options e = Ok m /\
    merge e busy_options = Ok m /\
    precision m = precision busy_options /\
    forall s, getMode m s = getMode busy_options s /\
              isWarningTodo m s = isWarningTodo busy_options s.
Proof.
  split; [reflexivity|]. split; [reflexivity|].
  apply (fromYaml_empty_document_neutral (fun _ => Ok None) "" busy_options);
    reflexivity.
Defined.

(** ** addImpl and the run mode *)

Lemma entries_of_set_other (this : SpecOptions) (option o : OptionKey)
      (v : value) :
  o <> option ->
  entries_of (new_SpecOptions (Obj.set this.(data) (key option) v)) o
  = entries_of this o.
Proof.
  intros N. unfold entries_of, Obj.get. cbn [data].
  rewrite lookup_set_other; [reflexivity|].
  intros K. apply key_inj in K. exact (N K).
Qed.

Lemma precision_set (this : SpecOptions) (option : OptionKey) (v : value) :
  precision (new_SpecOptions (Obj.set this.(data) (key option) v))
  = precision this.
Proof.
  unfold precision, Obj.get. cbn [data].
  rewrite lookup_set_other; [reflexivity|].
  intros K. exact (key_not_precision option (eq_sym K)).
Qed.

(** X19: after [addImpl(s, ':ignore_for')] the mode of [s] is ['ignore'];
    after [addImpl(s, ':todo')] it is ['ignore'] if it was ['ignore'] before
    and ['todo'] otherwise; neither changes the precision. *)
Theorem addImpl_getMode (this : SpecOptions) (s : string) :
  well_typed this.(data) ->
  exists ignored deferred,
    addImpl this s K_ignore_for = Ok ignored /\
    addImpl this s K_todo = Ok deferred /\
    getMode ignored s = Ok (Some Mode_ignore) /\
    (getMode this s = Ok (Some Mode_ignore) ->
     getMode deferred s = Ok (Some Mode_ignore)) /\
    (getMode this s <> Ok (Some Mode_ignore) ->
     getMode deferred s = Ok (Some Mode_todo)) /\
    precision ignored = precision this /\
    precision deferred = precision this.
Proof.
  intros H.
  pose (ri := new_SpecOptions
                (Obj.set this.(data) (key K_ignore_for)
                         (VArray (entries_of this K_ignore_for ++ [s])))).
  pose (rt := new_SpecOptions
                (Obj.set this.(data) (key K_todo)
                         (VArray (entries_of this K_todo ++ [s])))).
  assert (Hi : well_typed ri.(data)) by (apply well_typed_set; exact H).
  assert (Ht : well_typed rt.(data)) by (apply well_typed_set; exact H).
  assert (Mi : matches s (entries_of ri K_ignore_for) = true).
  { unfold ri. rewrite entries_of_set_same, matches_app. simpl.
    rewrite includes_refl, orb_true_r. reflexivity. }
  assert (Mt : matches s (entries_of rt K_todo) = true).
  { unfold rt. rewrite entries_of_set_same, matches_app. simpl.
    rewrite includes_refl, orb_true_r. reflexivity. }
  assert (Mti : entries_of rt K_ignore_for = entries_of this K_ignore_for).
  { unfold rt. apply entries_of_set_other. discriminate. }
  exists ri, rt.
  split; [exact (addImpl_typed this s K_ignore_for H)|].
  split; [exact (addImpl_typed this s K_todo H)|].
  rewrite (getMode_typed ri s Hi), (getMode_typed rt s Ht),
    (getMode_typed this s H), Mi, Mt, Mti.
  split; [reflexivity|].
  destruct (matches s (entries_of this K_ignore_for)).
  - split; [reflexivity|]. split; [intros N; destruct (N eq_refl)|].
    split; apply precision_set.
  - split; [intros D; destruct (matches s (entries_of this K_todo));
            discriminate D|].
    split; [reflexivity|]. split; apply precision_set.
Qed.

Lemma addImpl_getMode_witness :
  well_typed parent_options.(data) /\
  exists ignored deferred,
    addImpl parent_options "dart-sass" K_ignore_for = Ok ignored /\
    addImpl parent_options "dart-sass" K_todo = Ok deferred /\
    getMode ignored "dart-sass" = Ok (Some Mode_ignore) /\
    (getMode parent_options "dart-sass" = Ok (Some Mode_ignore) ->
     getMode deferred "dart-sass" = Ok (Some Mode_ignore)) /\
    (getMode parent_options "dart-sass" <> Ok (Some Mode_ignore) ->
     getMode deferred "dart-sass" = Ok (Some Mode_todo)) /\
    precision ignored = precision parent_options /\
    precision deferred = precision parent_options.
Proof.
  split; [reflexivity|].
  apply (addImpl_getMode parent_options "dart-sass"). reflexivity.
Defined.
